(** * Root scoping for the GitHub MCP server

    A shallow embedding of the root-scoping layer of the server
    (package [github]): the root URI parser ([ParseGitHubRootURI], in the
    two variants found in the sources), the root resolver
    ([ParseGitHubRoots]), the injection middleware ([RootsMiddleware]), the
    enforcement middleware ([RootsEnforcementMiddleware]) and the schema
    rewrite [MakeOwnerRepoOptional].

    Around it: the list_roots tool ([ListRootsTool]), the construction of
    the inventory ([NewInventory] and its options), the resolution of the
    enabled toolsets, the feature checkers of the local and the HTTP
    server, and the pairing of lines of the diff viewer's split view
    ([buildSplitRows]).

    Go strings are byte sequences and are modelled by [string]; Go maps with
    string keys by [gmap string _]; pointers to schema objects by locations
    in an explicit heap. *)

From Stdlib Require Import Ascii String.
From Stdlib Require Floats.
From stdpp Require Import base option strings gmap list.

Local Open Scope string_scope.

(** ** Package [strings] *)

Module Strings.

(** [strip_prefix p s] is [Some t] exactly when [s = p +:+ t]. *)
Fixpoint strip_prefix (p s : string) : option string :=
  match p, s with
  | EmptyString, _ => Some s
  | String a p', String b s' =>
      if decide (a = b) then strip_prefix p' s' else None
  | String _ _, EmptyString => None
  end.

Definition HasPrefix (s prefix : string) : bool :=
  bool_decide (is_Some (strip_prefix prefix s)).

(** [strings.TrimPrefix]: [s] without the leading [prefix], or [s] itself
    when [s] does not start with [prefix]. *)
Definition TrimPrefix (s prefix : string) : string :=
  default s (strip_prefix prefix s).

(** [strings.TrimSuffix]: [s] without the trailing [suffix], or [s] itself
    when [s] does not end with [suffix]. *)
Fixpoint TrimSuffix (s suffix : string) : string :=
  if decide (s = suffix) then ""
  else match s with
       | EmptyString => ""
       | String c s' => String c (TrimSuffix s' suffix)
       end.

(** [cut sep s] splits [s] around its first byte [sep]. *)
Fixpoint cut (sep : ascii) (s : string) : option (string * string) :=
  match s with
  | EmptyString => None
  | String c s' =>
      if decide (c = sep) then Some ("", s')
      else match cut sep s' with
           | Some (a, b) => Some (String c a, b)
           | None => None
           end
  end.

Fixpoint split_upto (cuts : nat) (sep : ascii) (s : string) : list string :=
  match cuts with
  | O => [s]
  | S k =>
      match cut sep s with
      | Some (a, b) => a :: split_upto k sep b
      | None => [s]
      end
  end.

(** [strings.SplitN] for a one-byte separator: at most [n] pieces, the
    last one being the unsplit remainder; [n = 0] gives the nil slice. *)
Definition SplitN (s : string) (sep : ascii) (n : nat) : list string :=
  match n with
  | O => []
  | S k => split_upto k sep s
  end.

(** [strings.Join]. *)
Fixpoint Join (elems : list string) (sep : string) : string :=
  match elems with
  | [] => ""
  | [x] => x
  | x :: rest => x +:+ sep +:+ Join rest sep
  end.


Fixpoint has_byte (c : ascii) (s : string) : bool :=
  match s with
  | EmptyString => false
  | String b s' => bool_decide (b = c) || has_byte c s'
  end.


Arguments cut sep%_char s%_string.
Arguments SplitN s%_string sep%_char n%_nat : simpl never.
Arguments has_byte c%_char s%_string.

End Strings.
Export Strings.

(** ** What the code takes from Go's standard library

    [strings.ToLower] and [strings.EqualFold] work on Unicode, [url.Parse]
    implements RFC 3986 with Go's leniencies, the [%q] verb quotes the Go
    way, and the order in which [range] visits the keys of a map is
    unspecified.  The embedding is parametric in them, so every theorem
    holds whatever these functions compute; [GoAscii.go] below is an
    executable instance. *)

(** The three fields of a [url.URL] the parser reads. *)
Record URL := mkURL { Scheme : string; Host : string; Path : string }.

Class GoLib := {
  (** [strings.ToLower] *)
  ToLower : string → string;
  (** [strings.EqualFold] *)
  EqualFold : string → string → bool;
  (** [url.Parse]; [None] is a non-nil error *)
  url_Parse : string → option URL;
  (** [fmt.Sprintf] with the verb [%q] on a string *)
  Quote : string → string;
  (** the keys of a map in the order one [range] loop visits them *)
  range_keys : gset string → list string;
  ToLower_empty : ToLower "" = "";
  range_keys_perm : ∀ s, range_keys s ≡ₚ elements s;
}.

(** ** Results of fallible functions *)

Inductive ParseError :=
  | ErrInvalidURI
  | ErrUnsupportedScheme (scheme : string)
  | ErrHostMismatch (got expected : string)
  | ErrNoPath
  | ErrNoOwner
  | ErrNoOwnerRepo
  | ErrEmptyRepo.

Inductive result (A : Type) :=
  | Ok (a : A)
  | Err (e : ParseError).
Arguments Ok {A} a.
Arguments Err {A} e.

Definition is_ok {A} (r : result A) : bool :=
  match r with Ok _ => true | Err _ => false end.

Definition ok_value {A} (r : result A) : option A :=
  match r with Ok a => Some a | Err _ => None end.

Definition supported_scheme (scheme : string) : bool :=
  bool_decide (scheme = "https") || bool_decide (scheme = "http")
  || bool_decide (scheme = "git").

Definition default_host (host : string) : string :=
  if decide (host = "") then "github.com" else host.

(** ** The root parser and resolver (type [Root]: the variant with
    organization-level roots and lowercase normalization, the one the
    middlewares and the parser's tests use) *)

Module Roots.
Section with_go.
Context `{GoLib}.

Record Root := mkRoot {
  Owner : string;
  Repo : string;
  URI : string;
  Name : string;
}.

Definition ParseGitHubRootURI (uri host : string) : result (string * string) :=
  let host := default_host host in
  match url_Parse uri with
  | None => Err ErrInvalidURI
  | Some parsed =>
      if negb (supported_scheme (Scheme parsed)) then
        Err (ErrUnsupportedScheme (Scheme parsed))
      else if negb (EqualFold (Host parsed) host) then
        Err (ErrHostMismatch (Host parsed) host)
      else
        let path := TrimPrefix (Path parsed) "/" in
        let path := TrimSuffix path "/" in
        if decide (path = "") then Err ErrNoPath
        else
          let segments := SplitN path "/" 3 in
          match segments with
          | [] => Err ErrNoOwner
          | seg0 :: rest =>
              if decide (seg0 = "") then Err ErrNoOwner
              else
                let owner := ToLower seg0 in
                let repo :=
                  match rest with
                  | seg1 :: _ =>
                      if decide (seg1 = "") then ""
                      else ToLower (TrimSuffix seg1 ".git")
                  | [] => ""
                  end in
                Ok (owner, repo)
          end
  end.

(** An entry of the client's root list; [None] is a nil pointer. *)
Record mcpRoot := mkMcpRoot { root_URI : string; root_Name : string }.

Fixpoint ParseGitHubRoots (roots : list (option mcpRoot)) (host : string)
  : list Root :=
  match roots with
  | [] => []
  | None :: rest => ParseGitHubRoots rest host
  | Some root :: rest =>
      match ParseGitHubRootURI (root_URI root) host with
      | Err _ => ParseGitHubRoots rest host
      | Ok (owner, repo) =>
          mkRoot owner repo (root_URI root) (root_Name root)
            :: ParseGitHubRoots rest host
      end
  end.

End with_go.
End Roots.

(** ** The other variant of the parser found in the sources (type
    [GitHubRoot]: repository-level roots only, no case normalization) *)

Module RepoRoots.
Section with_go.
Context `{GoLib}.

Record GitHubRoot := mkGitHubRoot {
  Owner : string;
  Repo : string;
  URI : string;
  Name : string;
}.

Definition ParseGitHubRootURI (uri host : string) : result (string * string) :=
  let host := default_host host in
  match url_Parse uri with
  | None => Err ErrInvalidURI
  | Some parsed =>
      if negb (supported_scheme (Scheme parsed)) then
        Err (ErrUnsupportedScheme (Scheme parsed))
      else if negb (EqualFold (Host parsed) host) then
        Err (ErrHostMismatch (Host parsed) host)
      else
        let path := TrimPrefix (Path parsed) "/" in
        let path := TrimSuffix path "/" in
        if decide (path = "") then Err ErrNoPath
        else
          let segments := SplitN path "/" 3 in
          match segments with
          | seg0 :: seg1 :: _ =>
              if decide (seg0 = "") then Err ErrNoOwnerRepo
              else if decide (seg1 = "") then Err ErrNoOwnerRepo
              else
                let owner := seg0 in
                let repo := TrimSuffix seg1 ".git" in
                if decide (repo = "") then Err ErrEmptyRepo
                else Ok (owner, repo)
          | _ => Err ErrNoOwnerRepo
          end
  end.

Fixpoint ParseGitHubRoots (roots : list (option Roots.mcpRoot)) (host : string)
  : list GitHubRoot :=
  match roots with
  | [] => []
  | None :: rest => ParseGitHubRoots rest host
  | Some root :: rest =>
      match ParseGitHubRootURI (Roots.root_URI root) host with
      | Err _ => ParseGitHubRoots rest host
      | Ok (owner, repo) =>
          mkGitHubRoot owner repo (Roots.root_URI root) (Roots.root_Name root)
            :: ParseGitHubRoots rest host
      end
  end.

End with_go.
End RepoRoots.

(** ** JSON values and the argument payload

    [JValue] is what [json.Unmarshal] stores in an [any]: nil, bool,
    float64, string, [[]any] and [map[string]any]. *)

#[warnings="-register-all"]
Inductive JValue :=
  | JNull
  | JBool (b : bool)
  | JNumber (f : PrimFloat.float)
  | JString (s : string)
  | JArray (xs : list JValue)
  | JObject (fields : gmap string JValue).

(** A [json.RawMessage], up to the layout of the bytes: no bytes at all,
    bytes that are not a JSON text, or the encoding of a JSON value. *)
Inductive RawMessage :=
  | RawEmpty
  | RawMalformed (bytes : string)
  | RawJSON (v : JValue).

Definition raw_len_is_zero (raw : RawMessage) : bool :=
  match raw with RawEmpty => true | _ => false end.

(** [json.Unmarshal(raw, &args)] for [var args map[string]any]: [None] is
    an error, [Some None] leaves [args] nil (the JSON text [null]),
    [Some (Some m)] stores the object's members. *)
Definition json_Unmarshal (raw : RawMessage)
  : option (option (gmap string JValue)) :=
  match raw with
  | RawEmpty => None
  | RawMalformed _ => None
  | RawJSON JNull => Some None
  | RawJSON (JObject m) => Some (Some m)
  | RawJSON _ => None
  end.

(** [json.Marshal(args)] for a [map[string]any] of decoded values. *)
Definition json_Marshal (args : gmap string JValue) : option RawMessage :=
  Some (RawJSON (JObject args)).

(** ** The protocol runtime, as the middlewares see it *)

Module Mcp.

Inductive ListRootsOutcome :=
  | ListRootsError (err : string)
  | ListRootsNil
  | ListRootsOk (roots : list (option Roots.mcpRoot)).

(** A session is the answer its client gives to [ListRoots]. *)
Record ServerSession := mkSession { ListRoots : ListRootsOutcome }.

Record CallToolParamsRaw := mkParams {
  Name : string;
  Arguments : RawMessage;
}.

(** A [*mcp.CallToolRequest] as the runtime hands it to a receiving
    middleware: [Params] is set, [Session] may be nil. *)
Record CallToolRequest := mkCallToolRequest {
  Session : option ServerSession;
  Params : CallToolParamsRaw;
}.

(** [mcp.Request] is an interface; the middlewares only tell a
    [*mcp.CallToolRequest] from the rest. *)
Inductive Request :=
  | CallToolReq (callReq : CallToolRequest)
  | OtherReq (kind : string).

Inductive Content := TextContent (Text : string).

Record CallToolResult := mkCallToolResult {
  ResultContent : list Content;
  IsError : bool;
}.

(** Modelled from the spec: [utils.NewToolResultError] is not among the
    sources; by the enforcement middleware's documentation and tests it
    builds a result with [IsError] set whose single content is the
    message as text. *)
Definition NewToolResultError (message : string) : CallToolResult :=
  {| ResultContent := [TextContent message]; IsError := true |}.

Inductive Level := LevelDebug | LevelInfo | LevelWarn.

Record LogRecord := mkLog {
  log_level : Level;
  log_msg : string;
  log_attrs : list (string * string);
}.

(** What one run of a middleware closure does: the records it logs, and
    either the tail call [next(ctx, method, request)] or a result of its
    own with the (nil or non-nil) Go error beside it. *)
Inductive Action :=
  | CallNext (method : string) (request : Request)
  | Return (result : CallToolResult) (err : option string).

Record Step := mkStep { logged : list LogRecord; action : Action }.

Definition pass (method : string) (request : Request) : Step :=
  mkStep [] (CallNext method request).

Definition calls_next (step : Step) : bool :=
  match action step with CallNext _ _ => true | Return _ _ => false end.

Definition MethodHandler (Result : Type) : Type :=
  string → Request → Result * option string.

(** [mw(next)]: run the closure, then call [next] or return. *)
Definition apply_middleware {Result} (of_tool_result : CallToolResult → Result)
    (mw : string → Request → Step) (next : MethodHandler Result)
  : MethodHandler Result :=
  λ method request,
    match action (mw method request) with
    | CallNext m r => next m r
    | Return res err => (of_tool_result res, err)
    end.

(** What a downstream handler reads from the payload of a request:
    the members of its argument object (none for an empty or [null]
    payload), [None] when the payload does not decode. *)
Definition decoded_args (raw : RawMessage) : option (gmap string JValue) :=
  if raw_len_is_zero raw then Some ∅
  else match json_Unmarshal raw with
       | None => None
       | Some None => Some ∅
       | Some (Some m) => Some m
       end.

Definition request_args (request : Request) : option (gmap string JValue) :=
  match request with
  | CallToolReq callReq => decoded_args (Arguments (Params callReq))
  | OtherReq _ => None
  end.

End Mcp.
Export Mcp.

(** ** The middlewares *)

Module Middleware.
Import Roots.
Section with_go.
Context `{GoLib}.

(** The root listing shared by both middlewares: [None] stands for each
    of the early pass-through exits, [Some ghRoots] for a non-empty list
    of resolved roots. *)
Definition resolved_roots (host : string) (session : ServerSession)
  : option (list Root) :=
  match ListRoots session with
  | ListRootsError _ => None
  | ListRootsNil => None
  | ListRootsOk roots =>
      if decide (length roots = 0) then None
      else
        let ghRoots := ParseGitHubRoots roots host in
        if decide (length ghRoots = 0) then None else Some ghRoots
  end.

Definition list_roots_failure (what : string) (session : ServerSession)
  : list LogRecord :=
  match ListRoots session with
  | ListRootsError err => [mkLog LevelDebug what [("error", err)]]
  | _ => []
  end.

(** *** Enforcement *)

(** The loop computing [ownerAllowed] and [hasOrgRoot]. *)
Definition owner_scan (ownerLower : string) (ghRoots : list Root)
  : bool * bool :=
  fold_left
    (λ '(ownerAllowed, hasOrgRoot) r,
       if decide (Owner r = ownerLower) then
         (true, if decide (Repo r = "") then true else hasOrgRoot)
       else (ownerAllowed, hasOrgRoot))
    ghRoots (false, false).

(** [owners[r.Owner] = true] for every root. *)
Definition owners_map (ghRoots : list Root) : gmap string bool :=
  fold_left (λ owners r, <[Owner r := true]> owners) ghRoots ∅.

Definition owner_denied_msg (owner : string) (ghRoots : list Root) : string :=
  let allowedList := Quote <$> range_keys (dom (owners_map ghRoots)) in
  "root enforcement: owner " +:+ Quote owner
    +:+ " is not within configured roots (allowed owners: "
    +:+ Join allowedList ", " +:+ ")".

Definition repo_allowed (ownerLower repoLower : string) (ghRoots : list Root)
  : bool :=
  existsb
    (λ r, bool_decide (Owner r = ownerLower) && bool_decide (Repo r = repoLower))
    ghRoots.

Definition allowed_repos (ownerLower : string) (ghRoots : list Root)
  : list string :=
  Quote <$> (Repo <$>
    filter (λ r, Owner r = ownerLower ∧ Repo r ≠ "") ghRoots).

Definition repo_denied_msg (owner repo : string) (ghRoots : list Root)
  : string :=
  "root enforcement: repository " +:+ Quote owner +:+ "/" +:+ Quote repo
    +:+ " is not within configured roots (allowed repos for "
    +:+ Quote owner +:+ ": "
    +:+ Join (allowed_repos (ToLower owner) ghRoots) ", " +:+ ")".

Definition deny (msg toolName : string) (attrs : list (string * string))
  : Step :=
  mkStep [mkLog LevelInfo msg (("tool", toolName) :: attrs)]
         (Return (NewToolResultError msg) None).

Definition RootsEnforcementMiddleware (host : string)
    (method : string) (request : Request) : Step :=
  if decide (method ≠ "tools/call") then pass method request
  else
    match request with
    | OtherReq _ => pass method request
    | CallToolReq callReq =>
      match Session callReq with
      | None => pass method request
      | Some session =>
        match resolved_roots host session with
        | None =>
            mkStep
              (list_roots_failure
                 "roots enforcement: ListRoots failed, continuing without enforcement"
                 session)
              (CallNext method request)
        | Some ghRoots =>
          let raw := Arguments (Params callReq) in
          let unmarshalled :=
            if raw_len_is_zero raw then Some None else json_Unmarshal raw in
          match unmarshalled with
          | None => pass method request
          | Some args =>
            match default ∅ args !! "owner" with
            | None => pass method request
            | Some (JString owner) =>
              if decide (owner = "") then pass method request
              else
                let ownerLower := ToLower owner in
                let '(ownerAllowed, hasOrgRoot) :=
                  owner_scan ownerLower ghRoots in
                if negb ownerAllowed then
                  deny (owner_denied_msg owner ghRoots)
                       (Mcp.Name (Params callReq)) [("owner", owner)]
                else
                  match default ∅ args !! "repo" with
                  | Some (JString repo) =>
                    if decide (repo = "") then pass method request
                    else if hasOrgRoot then pass method request
                    else if repo_allowed ownerLower (ToLower repo) ghRoots
                    then pass method request
                    else
                      deny (repo_denied_msg owner repo ghRoots)
                           (Mcp.Name (Params callReq))
                           [("owner", owner); ("repo", repo)]
                  | _ => pass method request
                  end
            | Some _ => pass method request
            end
          end
        end
      end
    end.

(** The repo argument the repo check looks at: a non-empty string; a
    missing, non-string or empty [repo] is not checked. *)
Definition checked_repo (args : gmap string JValue) : option string :=
  match args !! "repo" with
  | Some (JString repo) => if decide (repo = "") then None else Some repo
  | _ => None
  end.

(** The scope rule in the specification's words: some root has the
    owner [lower(O)] and (that root's repo is empty, or R is absent, or
    some root for that owner has the repo [lower(R)]).  This definition
    follows the specification, not the code. *)
Definition scope_allows (S : list Root) (O : string) (R : option string)
  : Prop :=
  ∃ r, r ∈ S ∧ Owner r = ToLower O
       ∧ (Repo r = "" ∨ R = None
          ∨ ∃ r', r' ∈ S ∧ Owner r' = ToLower O ∧ Some (Repo r') = ToLower <$> R).

(** *** Injection *)

Definition repo_level_roots (ghRoots : list Root) : list Root :=
  filter (λ r, Repo r ≠ "") ghRoots.

(** The loop over [ghRoots[1:]] with its [break]. *)
Definition all_same_owner (commonOwner : string) (others : list Root) : bool :=
  forallb (λ r, bool_decide (Owner r = commonOwner)) others.

(** The two conditional assignments [args["owner"] = commonOwner] and
    [args["repo"] = repoRoots[0].Repo], with the [modified] flag. *)
Definition inject_defaults (commonOwner : string) (repoRoots : list Root)
    (args : gmap string JValue) : gmap string JValue * bool :=
  let '(args, modified) :=
    match args !! "owner" with
    | None => (<["owner" := JString commonOwner]> args, true)
    | Some _ => (args, false)
    end in
  match repoRoots with
  | [only] =>
      match args !! "repo" with
      | None => (<["repo" := JString (Repo only)]> args, true)
      | Some _ => (args, modified)
      end
  | _ => (args, modified)
  end.

Definition with_arguments (callReq : CallToolRequest) (newArgs : RawMessage)
  : CallToolRequest :=
  {| Session := Session callReq;
     Params := {| Mcp.Name := Mcp.Name (Params callReq); Arguments := newArgs |} |}.

Definition RootsMiddleware (host : string)
    (method : string) (request : Request) : Step :=
  if decide (method ≠ "tools/call") then pass method request
  else
    match request with
    | OtherReq _ => pass method request
    | CallToolReq callReq =>
      match Session callReq with
      | None => pass method request
      | Some session =>
        match resolved_roots host session with
        | None =>
            mkStep
              (list_roots_failure
                 "roots middleware: ListRoots failed, continuing without root defaults"
                 session)
              (CallNext method request)
        | Some ghRoots =>
          let repoRoots := repo_level_roots ghRoots in
          match ghRoots with
          | [] => pass method request
          | first :: others =>
            let commonOwner := Owner first in
            if negb (all_same_owner commonOwner others) then
              pass method request
            else
              let raw := Arguments (Params callReq) in
              let unmarshalled :=
                if raw_len_is_zero raw then Some None
                else json_Unmarshal raw in
              match unmarshalled with
              | None => pass method request
              | Some args =>
                let args := default ∅ args in
                let '(args, modified) :=
                  inject_defaults commonOwner repoRoots args in
                if negb modified then pass method request
                else
                  match json_Marshal args with
                  | None =>
                      mkStep
                        [mkLog LevelWarn
                           "roots middleware: failed to marshal modified arguments"
                           []]
                        (CallNext method request)
                  | Some newArgs =>
                      let logAttrs :=
                        app
                          [("tool", Mcp.Name (Params callReq));
                           ("owner", commonOwner)]
                          match repoRoots with
                          | [only] => [("repo", Repo only)]
                          | _ => []
                          end in
                      mkStep
                        [mkLog LevelInfo
                           "roots middleware: injected defaults from roots"
                           logAttrs]
                        (CallNext method
                           (CallToolReq (with_arguments callReq newArgs)))
                  end
              end
          end
        end
      end
    end.

End with_go.
End Middleware.

(** ** Tool descriptors and their schemas

    A [*jsonschema.Schema] is a location in a heap of schema objects; the
    fields the rewrite never looks at are carried along in one component
    ([schema_rest], [tool_rest], [server_rest]). *)

Module Inventory.

Definition loc := positive.

Record Schema {SchemaRest : Type} := mkSchema {
  Description : string;
  Required : list string;
(** [map[string]*Schema]: [None] is the nil map, a member bound to
    [None] is a nil pointer. *)
Properties : option (gmap string (option loc));
schema_rest : SchemaRest;
}.
Arguments Schema : clear implicits.

(** [Tool.InputSchema] has type [any]. *)
Inductive InputSchemaValue :=
  | SchemaPtr (p : option loc)
  | NotASchema (v : JValue).

Record McpTool {ToolRest : Type} := mkTool {
  Name : string;
  InputSchema : InputSchemaValue;
  tool_rest : ToolRest;
}.
Arguments McpTool : clear implicits.

Record ServerTool {ToolRest ServerRest : Type} := mkServerTool {
  Tool : McpTool ToolRest;
  server_rest : ServerRest;
}.
Arguments ServerTool : clear implicits.

Section rewrite.
Context {SchemaRest ToolRest ServerRest : Type}.

Abbreviation heap := (gmap loc (Schema SchemaRest)).
Abbreviation tool := (ServerTool ToolRest ServerRest).

(** Taking the address of a fresh copy. *)
Definition alloc (s : Schema SchemaRest) (h : heap) : loc * heap :=
  let l := fresh (dom h) in (l, <[l := s]> h).

Arguments alloc : simpl never.

Definition advisory : string := " (optional when roots are configured)".

Definition with_advisory (prop : Schema SchemaRest) : Schema SchemaRest :=
  {| Description := Description prop +:+ advisory;
     Required := Required prop;
     Properties := Properties prop;
     schema_rest := schema_rest prop |}.

(** [if prop, exists := newProps[key]; exists && prop != nil { ... }] *)
Definition annotate (key : string) (newProps : gmap string (option loc))
    (h : heap) : gmap string (option loc) * heap :=
  match newProps !! key with
  | Some (Some p) =>
      match h !! p with
      | Some prop =>
          let '(p', h) := alloc (with_advisory prop) h in
          (<[key := Some p']> newProps, h)
      | None => (newProps, h)
      end
  | _ => (newProps, h)
  end.

(** [if schemaCopy.Properties != nil { ... }]: the copied map with its
    [owner] and [repo] entries annotated. *)
Definition copy_properties (properties : option (gmap string (option loc)))
    (h : heap) : option (gmap string (option loc)) * heap :=
  match properties with
  | None => (None, h)
  | Some props =>
      let '(newProps, h) := annotate "owner" props h in
      let '(newProps, h) := annotate "repo" newProps h in
      (Some newProps, h)
  end.

Definition keep_required (r : string) : Prop := r ≠ "owner" ∧ r ≠ "repo".

(** One iteration of the loop: the entry stored in [result[i]]. *)
Definition make_optional (t : tool) (h : heap) : tool * heap :=
  match InputSchema (Tool t) with
  | SchemaPtr (Some l) =>
      match h !! l with
      | Some schema =>
          let hasOwner := bool_decide ("owner" ∈ Required schema) in
          let hasRepo := bool_decide ("repo" ∈ Required schema) in
          if negb hasOwner && negb hasRepo then (t, h)
          else
            let newRequired := filter keep_required (Required schema) in
            let '(newProperties, h) := copy_properties (Properties schema) h in
            let schemaCopy :=
              {| Description := Description schema;
                 Required := newRequired;
                 Properties := newProperties;
                 schema_rest := schema_rest schema |} in
            let '(l', h) := alloc schemaCopy h in
            ({| Tool := {| Name := Name (Tool t);
                           InputSchema := SchemaPtr (Some l');
                           tool_rest := tool_rest (Tool t) |};
                server_rest := server_rest t |}, h)
      | None => (t, h)
      end
  | _ => (t, h)
  end.

Fixpoint MakeOwnerRepoOptional (tools : list tool) (h : heap)
  : list tool * heap :=
  match tools with
  | [] => ([], h)
  | t :: rest =>
      let '(t', h) := make_optional t h in
      let '(rest', h) := MakeOwnerRepoOptional rest h in
      (t' :: rest', h)
  end.

(** What the rewrite owes to one property of a schema, from the heap [h]
    before to the heap [h'] after: the [owner] and [repo] properties that
    point to a schema now point to a fresh copy of it whose description
    has the advisory appended; every other entry is the one it was. *)
Definition property_rewritten (h h' : heap) (key : string)
    (old new : option (option loc)) : Prop :=
  match old with
  | Some (Some p) =>
      if decide (key = "owner" ∨ key = "repo") then
        ∀ prop, h !! p = Some prop →
                ∃ p', new = Some (Some p') ∧ h !! p' = None
                      ∧ h' !! p' = Some (with_advisory prop)
      else new = old
  | _ => new = old
  end.

(** What the rewrite owes to one schema: [Required] without [owner] and
    [repo], the properties rewritten as above, and nothing else
    changed. *)
Definition schema_rewritten (h h' : heap)
    (schema schema' : Schema SchemaRest) : Prop :=
  Required schema' = filter (λ r, r ≠ "owner" ∧ r ≠ "repo") (Required schema)
  ∧ Description schema' = Description schema
  ∧ schema_rest schema' = schema_rest schema
  ∧ match Properties schema, Properties schema' with
    | None, None => True
    | Some props, Some props' =>
        ∀ key, property_rewritten h h' key (props !! key) (props' !! key)
    | _, _ => False
    end.

(** A tool the rewrite has nothing to do for: its input schema is not a
    schema pointer, or the schema requires neither owner nor repo. *)
Definition untouched (h : heap) (t : tool) : Prop :=
  match InputSchema (Tool t) with
  | SchemaPtr (Some l) =>
      ∃ schema, h !! l = Some schema
                ∧ ("owner" ∉ Required schema) ∧ ("repo" ∉ Required schema)
  | _ => True
  end.

End rewrite.
End Inventory.

(** ** An executable instance of the library interface

    Byte-wise counterparts of the library functions.  [ToLower] and
    [EqualFold] agree with Go's on ASCII strings and [Quote] on printable
    ASCII; [url_Parse] follows [net/url]'s [Parse] (fragment, scheme,
    query, authority, percent-decoded path) and agrees with it on URIs
    whose authority is a plain host name. *)

Module GoAscii.

Definition in_range (lo hi : nat) (c : ascii) : bool :=
  let n := nat_of_ascii c in ((lo <=? n) && (n <=? hi))%nat.

Definition is_upper := in_range 65 90.
Definition is_alpha (c : ascii) : bool := in_range 65 90 c || in_range 97 122 c.
Definition is_digit := in_range 48 57.

Definition lower_byte (c : ascii) : ascii :=
  if is_upper c then ascii_of_nat (nat_of_ascii c + 32)%nat else c.

Fixpoint ToLower (s : string) : string :=
  match s with
  | EmptyString => ""
  | String c s' => String (lower_byte c) (ToLower s')
  end.

Definition EqualFold (s t : string) : bool :=
  bool_decide (ToLower s = ToLower t).

Definition dquote : ascii := "034"%char.
Definition backslash : ascii := "092"%char.

Fixpoint escape (s : string) : string :=
  match s with
  | EmptyString => ""
  | String c s' =>
      if bool_decide (c = dquote) || bool_decide (c = backslash)
      then String backslash (String c (escape s'))
      else String c (escape s')
  end.

Definition Quote (s : string) : string :=
  String dquote (escape s +:+ String dquote "").

Definition is_ctl (c : ascii) : bool :=
  ((nat_of_ascii c <? 32) || (nat_of_ascii c =? 127))%nat.

Fixpoint has_ctl (s : string) : bool :=
  match s with
  | EmptyString => false
  | String c s' => is_ctl c || has_ctl s'
  end.

(** [getScheme]: [None] is the error (a colon in first position),
    [Some None] means no scheme. *)
Fixpoint scheme_scan (first : bool) (s : string)
  : option (option (string * string)) :=
  let continue c s' :=
    match scheme_scan false s' with
    | Some (Some (a, b)) => Some (Some (String c a, b))
    | r => r
    end in
  match s with
  | EmptyString => Some None
  | String c s' =>
      if is_alpha c then continue c s'
      else if is_digit c || bool_decide (c = "+"%char)
              || bool_decide (c = "-"%char) || bool_decide (c = "."%char)
      then (if first then Some None else continue c s')
      else if bool_decide (c = ":"%char)
      then (if first then None else Some (Some ("", s')))
      else Some None
  end.

Definition getScheme (rawURL : string) : option (string * string) :=
  match scheme_scan true rawURL with
  | None => None
  | Some None => Some ("", rawURL)
  | Some (Some found) => Some found
  end.

Definition unhex (c : ascii) : option nat :=
  let n := nat_of_ascii c in
  if in_range 48 57 c then Some (n - 48)%nat
  else if in_range 97 102 c then Some (n - 87)%nat
  else if in_range 65 70 c then Some (n - 55)%nat
  else None.

Fixpoint unescape (s : string) : option string :=
  match s with
  | EmptyString => Some ""
  | String c s' =>
      if bool_decide (c = "%"%char) then
        match s' with
        | String a (String b s'') =>
            match unhex a, unhex b with
            | Some x, Some y =>
                String (ascii_of_nat (16 * x + y)%nat) <$> unescape s''
            | _, _ => None
            end
        | _ => None
        end
      else String c <$> unescape s'
  end.

Definition before (sep : ascii) (s : string) : string :=
  match cut sep s with Some (a, _) => a | None => s end.

(** The part of an authority after its last [@]. *)
Fixpoint after_last_at (s : string) : string :=
  match s with
  | EmptyString => ""
  | String c s' =>
      if has_byte "@" s' then after_last_at s'
      else if bool_decide (c = "@"%char) then s' else s
  end.

Definition url_Parse (rawURL : string) : option URL :=
  let u := before "#" rawURL in
  if has_ctl u then None
  else if bool_decide (u = "*") then Some (mkURL "" "" "*")
  else
    match getScheme u with
    | None => None
    | Some (scheme, rest) =>
        let scheme := ToLower scheme in
        let rest := before "?" rest in
        if negb (HasPrefix rest "/") && negb (bool_decide (scheme = ""))
        then Some (mkURL scheme "" "")
        else if negb (HasPrefix rest "/") && has_byte ":" (before "/" rest)
        then None
        else
          let '(host, rest) :=
            if (negb (bool_decide (scheme = "")) || negb (HasPrefix rest "///"))
               && HasPrefix rest "//"
            then
              let authority := TrimPrefix rest "//" in
              match cut "/" authority with
              | Some (a, r) => (after_last_at a, "/" +:+ r)
              | None => (after_last_at authority, "")
              end
            else ("", rest) in
          match unescape rest with
          | None => None
          | Some path => Some (mkURL scheme host path)
          end
    end.

#[export] Instance go : GoLib :=
  Build_GoLib ToLower EqualFold url_Parse Quote elements
              eq_refl (λ s, reflexivity (elements s)).

End GoAscii.

(** ** The [list_roots] tool *)

Module RootsTool.
Section with_go.
Context `{GoLib}.

(** The JSON structure returned by the tool. *)
Record rootInfo := mkRootInfo {
  URI : string;
  Name : string;
  Owner : string;
  Repo : string;
}.

(** What the handler hands back: an error result with its message, a
    text result, or [MarshalledTextResult(infos)]. *)
Inductive Reply :=
  | ReplyError (message : string)
  | ReplyText (text : string)
  | ReplyMarshalled (infos : list rootInfo).

(** The loop over [rootsResult.Roots]. *)
Fixpoint root_infos (roots : list (option Roots.mcpRoot)) (host : string)
  : list rootInfo :=
  match roots with
  | [] => []
  | None :: rest => root_infos rest host
  | Some root :: rest =>
      let info :=
        match Roots.ParseGitHubRootURI (Roots.root_URI root) host with
        | Ok (owner, repo) =>
            mkRootInfo (Roots.root_URI root) (Roots.root_Name root) owner repo
        | Err _ =>
            mkRootInfo (Roots.root_URI root) (Roots.root_Name root) "" ""
        end in
      info :: root_infos rest host
  end.

(** The root an info describes, as the middlewares hold it. *)
Definition info_root (i : rootInfo) : Roots.Root :=
  Roots.mkRoot (Owner i) (Repo i) (URI i) (Name i).

(** The handler of [ListRootsTool]. *)
Definition ListRootsTool (host : string) (req : CallToolRequest) : Reply :=
  match Session req with
  | None => ReplyError "no session available"
  | Some session =>
      match ListRoots session with
      | ListRootsError err => ReplyError ("failed to list roots: " +:+ err)
      | ListRootsNil => ReplyText "No roots configured"
      | ListRootsOk roots =>
          if decide (length roots = 0) then ReplyText "No roots configured"
          else ReplyMarshalled (root_infos roots host)
      end
  end.

End with_go.
End RootsTool.

(** ** Building the inventory and the server configuration *)

Module Server.

Record inventoryConfig := mkInventoryConfig {
  host : string;
  rootsMode : bool;
}.

(** An [InventoryOption] is a function that updates the configuration in
    place. *)
Definition InventoryOption : Type := inventoryConfig → inventoryConfig.

Definition WithHost (h : string) : InventoryOption :=
  λ c, {| host := h; rootsMode := rootsMode c |}.

Definition WithRootsMode (enabled : bool) : InventoryOption :=
  λ c, {| host := host c; rootsMode := enabled |}.

Definition apply_options (opts : list InventoryOption) : inventoryConfig :=
  fold_left (λ cfg opt, opt cfg) opts (mkInventoryConfig "" false).

(** [NewInventory]: the tools it hands to the builder's [SetTools].
    [AllTools] is not among the sources and is a parameter. *)
Definition NewInventory {SchemaRest ToolRest ServerRest : Type}
    (AllTools : string → list (Inventory.ServerTool ToolRest ServerRest))
    (opts : list InventoryOption)
    (h : gmap Inventory.loc (Inventory.Schema SchemaRest))
  : list (Inventory.ServerTool ToolRest ServerRest)
    * gmap Inventory.loc (Inventory.Schema SchemaRest) :=
  let cfg := apply_options opts in
  let tools := AllTools (host cfg) in
  if rootsMode cfg then Inventory.MakeOwnerRepoOptional tools h
  else (tools, h).

(** [ResolvedEnabledToolsets].  A slice is [None] when nil.
    [RemoveToolset] and the identifiers of the toolsets [all] and
    [default] are not among the sources and are parameters. *)
Definition ResolvedEnabledToolsets
    (RemoveToolset : option (list string) → string → option (list string))
    (allID defaultID : string)
    (dynamicToolsets : bool) (enabledToolsets : option (list string))
    (enabledTools : option (list string)) : option (list string) :=
  let enabledToolsets :=
    if dynamicToolsets && bool_decide (enabledToolsets ≠ None) then
      RemoveToolset (RemoveToolset enabledToolsets allID) defaultID
    else enabledToolsets in
  if bool_decide (enabledToolsets ≠ None) then enabledToolsets
  else if dynamicToolsets then Some []
  else if bool_decide (0 < length (default [] enabledTools)) then Some []
  else None.

(** [createFeatureChecker]: the set built by the loop, then the lookup
    the returned closure does (a missing key reads as false). *)
Definition featureSet (enabledFeatures : list string) : gmap string bool :=
  fold_left (λ set f, <[f := true]> set) enabledFeatures ∅.

Definition createFeatureChecker (enabledFeatures : list string)
  : string → bool * option string :=
  let featureSet := featureSet enabledFeatures in
  λ flagName, (default false (featureSet !! flagName), None).

(** [createHTTPFeatureChecker]: [knownFeatureFlags] is not among the
    sources and is a parameter; [headerFeatures] is what
    [ghcontext.GetHeaderFeatures(ctx)] returns. *)
Definition createHTTPFeatureChecker (knownFeatureFlags : list string)
  : list string → string → bool * option string :=
  let knownSet := featureSet knownFeatureFlags in
  λ headerFeatures flag,
    if default false (knownSet !! flag) && bool_decide (flag ∈ headerFeatures)
    then (true, None)
    else (false, None).

End Server.

(** ** The split view of the diff viewer (TypeScript)

    [buildSplitRows] of the diff renderer pairs the lines of a hunk for
    the side-by-side view.  It does not compute with the line numbers,
    whose type is left open.  Strings are sequences of code units. *)

Module DiffView.

Inductive LineType := addition | deletion | context.

#[global] Instance LineType_eq_dec : EqDecision LineType.
Proof. solve_decision. Defined.

Section with_numbers.
Context {number : Type}.

Record DiffLine := mkDiffLine {
  type : LineType;
  content : string;
  oldLineNumber : option number;
  newLineNumber : option number;
}.

Record SplitRow := mkSplitRow {
  left : option DiffLine;
  right : option DiffLine;
}.

(** [while (i < lines.length && lines[i].type === t) { run.push(lines[i]); i++ }]:
    the run collected and the lines from the final [i] on. *)
Fixpoint collect (t : LineType) (lines : list DiffLine)
  : list DiffLine * list DiffLine :=
  match lines with
  | line :: rest =>
      if decide (type line = t) then
        let '(run, rest) := collect t rest in (line :: run, rest)
      else ([], lines)
  | [] => ([], [])
  end.

(** [for (let j = 0; j < maxLen; j++) rows.push({left: deletions[j] || null,
    right: additions[j] || null})]: an index out of range reads as
    [undefined], hence [null]. *)
Definition pair_up (deletions additions : list DiffLine) : list SplitRow :=
  (λ j, mkSplitRow (deletions !! j) (additions !! j))
    <$> seq 0 (max (length deletions) (length additions)).

(** The outer loop, on the lines from [i] on; every iteration moves [i]
    forward, so there are at most [lines.length] of them, which is what
    [fuel] counts.  In the deletion branch the first deletion collected
    is the current line.  The final [else] of the source is not reachable
    for a [type] of the declared union. *)
Fixpoint rows_from (fuel : nat) (lines : list DiffLine) : list SplitRow :=
  match fuel, lines with
  | S fuel, line :: rest =>
      match type line with
      | context => mkSplitRow (Some line) (Some line) :: rows_from fuel rest
      | deletion =>
          let '(deletions, rest) := collect deletion lines in
          let '(additions, rest) := collect addition rest in
          pair_up deletions additions ++ rows_from fuel rest
      | addition => mkSplitRow None (Some line) :: rows_from fuel rest
      end
  | _, _ => []
  end.

Definition buildSplitRows (lines : list DiffLine) : list SplitRow :=
  rows_from (length lines) lines.

End with_numbers.
Arguments DiffLine : clear implicits.
Arguments SplitRow : clear implicits.
End DiffView.

(** ** The setting of the repository's integration tests

    A client that declares the given root URIs calls the tool
    [echo_args] with the given argument object. *)

Module Scenario.

Definition session_of (uris : list string) : ServerSession :=
  mkSession (ListRootsOk ((λ uri, Some (Roots.mkMcpRoot uri "")) <$> uris)).

Definition call (uris : list string) (args : gmap string JValue) : Request :=
  CallToolReq
    (mkCallToolRequest (Some (session_of uris))
       (mkParams "echo_args" (RawJSON (JObject args)))).

(** The arguments the handler of [echo_args] reads after a middleware
    ran, [None] when the middleware did not call it. *)
Definition echoed (step : Step) : option (gmap string JValue) :=
  match action step with
  | CallNext _ request => request_args request
  | Return _ _ => None
  end.

(** The tool of the schema-rewrite tests: [list_issues] requires
    [owner] and [repo] and has the properties [owner], [repo] and
    [state]. *)
Definition plain_schema (description : string)
  : Inventory.Schema unit :=
  Inventory.mkSchema unit description [] None tt.

Definition list_issues_schema : Inventory.Schema unit :=
  Inventory.mkSchema unit "" ["owner"; "repo"]
    (Some (<["owner" := Some 2%positive]>
             (<["repo" := Some 3%positive]> {["state" := Some 4%positive]})))
    tt.

Definition schema_heap : gmap Inventory.loc (Inventory.Schema unit) :=
  <[1%positive := list_issues_schema]>
    (<[2%positive := plain_schema "Repository owner"]>
       (<[3%positive := plain_schema "Repository name"]>
          {[4%positive := plain_schema ""]})).

Definition list_issues : Inventory.ServerTool unit unit :=
  Inventory.mkServerTool unit unit
    (Inventory.mkTool unit "list_issues" (Inventory.SchemaPtr (Some 1%positive)) tt)
    tt.

End Scenario.

(** * Properties *)

(** ** Strings *)

Section string_facts.
Implicit Types s t p suffix : string.
Implicit Types c sep : ascii.

Lemma app_cons c s t : String c s +:+ t = String c (s +:+ t).
Proof. reflexivity. Qed.

Lemma app_nil_l s : "" +:+ s = s.
Proof. reflexivity. Qed.



Lemma app_length s t :
  String.length (s +:+ t) = String.length s + String.length t.
Proof. induction s as [|c s IH]; [done|]. rewrite app_cons. simpl. lia. Qed.

Lemma app_eq_nil s t : s +:+ t = "" → s = "" ∧ t = "".
Proof. destruct s; [rewrite app_nil_l; by intros ->|discriminate]. Qed.

Lemma strip_prefix_app p t : strip_prefix p (p +:+ t) = Some t.
Proof.
  induction p as [|c p IH]; [done|].
  rewrite app_cons. simpl. by rewrite decide_True.
Qed.

Lemma strip_prefix_Some p s t : strip_prefix p s = Some t → s = p +:+ t.
Proof.
  revert s. induction p as [|c p IH]; intros [|b s] Hs; simpl in Hs;
    simplify_eq; try done.
  case_decide; [|done]. subst. rewrite app_cons. f_equal. by apply IH.
Qed.


(** [TrimPrefix] meets the library's description: it removes the prefix
    when there is one and is the identity otherwise. *)
Lemma TrimPrefix_spec s p :
  (∃ t, s = p +:+ t ∧ TrimPrefix s p = t)
  ∨ ((∀ t, s ≠ p +:+ t) ∧ TrimPrefix s p = s).
Proof.
  unfold TrimPrefix. destruct (strip_prefix p s) as [t|] eqn:Hs.
  - left. exists t. split; [by apply strip_prefix_Some|done].
  - right. split; [|done]. intros t ->. by rewrite strip_prefix_app in Hs.
Qed.

Lemma TrimSuffix_unfold c s suffix :
  TrimSuffix (String c s) suffix =
    if decide (String c s = suffix) then ""
    else String c (TrimSuffix s suffix).
Proof. reflexivity. Qed.

Lemma TrimSuffix_nil suffix : TrimSuffix "" suffix = "".
Proof. by destruct suffix. Qed.

Lemma TrimSuffix_self s : TrimSuffix s s = "".
Proof.
  destruct s; [apply TrimSuffix_nil|].
  by rewrite TrimSuffix_unfold, decide_True.
Qed.


Lemma TrimSuffix_app s suffix : TrimSuffix (s +:+ suffix) suffix = s.
Proof.
  induction s as [|c s IH]; [apply TrimSuffix_self|].
  rewrite app_cons, TrimSuffix_unfold, decide_False, IH; [done|].
  intros Heq. apply (f_equal String.length) in Heq.
  simpl in Heq. rewrite app_length in Heq. lia.
Qed.

Lemma TrimSuffix_not_suffix s suffix :
  (∀ t, s ≠ t +:+ suffix) → TrimSuffix s suffix = s.
Proof.
  induction s as [|c s IH]; intros Hno.
  - apply TrimSuffix_nil.
  - rewrite TrimSuffix_unfold, decide_False.
    + f_equal. apply IH. intros t ->. by apply (Hno (String c t)).
    + intros <-. by apply (Hno "").
Qed.

(** [TrimSuffix] meets the library's description. *)
Lemma TrimSuffix_spec s suffix :
  (∃ t, s = t +:+ suffix ∧ TrimSuffix s suffix = t)
  ∨ ((∀ t, s ≠ t +:+ suffix) ∧ TrimSuffix s suffix = s).
Proof.
  induction s as [|c s IH].
  - destruct suffix as [|b suffix].
    + left. by exists "".
    + right. split; [|done]. intros t Ht. symmetry in Ht.
      apply app_eq_nil in Ht as [_ ?]. done.
  - destruct (decide (String c s = suffix)) as [<-|Hne].
    { left. exists "". by rewrite TrimSuffix_self. }
    destruct IH as [(t & -> & Ht)|[Hno Hid]].
    + left. exists (String c t). split; [done|].
      rewrite <- app_cons. apply TrimSuffix_app.
    + right. split.
      * intros [|b t] Heq; [by rewrite app_nil_l in Heq|].
        rewrite app_cons in Heq. simplify_eq. by apply (Hno t).
      * by rewrite TrimSuffix_unfold, decide_False, Hid.
Qed.

Lemma has_byte_app c s t : has_byte c (s +:+ t) = has_byte c s || has_byte c t.
Proof.
  induction s as [|b s IH]; [done|].
  rewrite app_cons. simpl. rewrite IH. by rewrite orb_assoc.
Qed.






End string_facts.

(** ** The root parser *)

Section parser_facts.
Context `{GoLib}.








End parser_facts.



(** ** The two variants of the parser *)

(** C8, as amended. The two variants agree up to case on repository-level
    roots and differ on organization-level ones: when the repository-only
    variant returns (owner, repo) the normalizing variant returns (lower
    owner, lower repo); when the normalizing variant fails so does the
    repository-only one; and when the normalizing variant succeeds where
    the repository-only one fails, it returns an empty repo. *)
Theorem parser_variants_related `{GoLib} (uri host : string) :
  (∀ owner repo,
     RepoRoots.ParseGitHubRootURI uri host = Ok (owner, repo) →
     Roots.ParseGitHubRootURI uri host = Ok (ToLower owner, ToLower repo))
  ∧ (is_ok (Roots.ParseGitHubRootURI uri host) = false →
     is_ok (RepoRoots.ParseGitHubRootURI uri host) = false)
  ∧ (∀ owner repo,
       Roots.ParseGitHubRootURI uri host = Ok (owner, repo) →
       is_ok (RepoRoots.ParseGitHubRootURI uri host) = false →
       repo = "").
Proof.
  unfold RepoRoots.ParseGitHubRootURI, Roots.ParseGitHubRootURI.
  destruct (url_Parse uri) as [u|]; [|done].
  destruct (supported_scheme (Scheme u)); [|done].
  destruct (EqualFold (Host u) (default_host host)); [|done]. simpl.
  destruct (decide (TrimSuffix (TrimPrefix (Path u) "/") "/" = ""));
    [done|].
  destruct (SplitN _ _ _) as [|seg0 [|seg1 more]];
    [done|by destruct (decide (seg0 = "")); split_and!; intros; simplify_eq|].
  destruct (decide (seg0 = "")); [done|].
  destruct (decide (seg1 = "")); [by split_and!; intros; simplify_eq|].
  destruct (decide (TrimSuffix seg1 ".git" = "")) as [Hgit|];
    split_and!; intros; simplify_eq; try done.
  rewrite Hgit. apply ToLower_empty.
Qed.

Lemma parser_variants_related_witness :
  @Roots.ParseGitHubRootURI GoAscii.go
    "https://github.com/OctoCat/My-Repo" "github.com"
  = Ok ("octocat", "my-repo").
Proof.
  pose proof (@parser_variants_related GoAscii.go
                "https://github.com/OctoCat/My-Repo" "github.com")
    as (Hrepo & _).
  apply (Hrepo "OctoCat" "My-Repo"). reflexivity.
Defined.

(** The variants do not compute the same function: on an
    organization-level URI the normalizing variant returns a pair and the
    repository-only variant an error. *)
Lemma parser_variants_differ :
  ¬ ((∃ p, @Roots.ParseGitHubRootURI GoAscii.go
             "https://github.com/octocat" "github.com" = Ok p
           ∧ @RepoRoots.ParseGitHubRootURI GoAscii.go
               "https://github.com/octocat" "github.com" = Ok p)
     ∨ (is_ok (@Roots.ParseGitHubRootURI GoAscii.go
                 "https://github.com/octocat" "github.com") = false
        ∧ is_ok (@RepoRoots.ParseGitHubRootURI GoAscii.go
                   "https://github.com/octocat" "github.com") = false)).
Proof.
  intros [(p & _ & Hp)|[Hp _]]; vm_compute in Hp; discriminate.
Qed.

(** ** Middlewares and the handler they wrap *)

Section wrapping.
Context {Result : Type} (of_tool_result : CallToolResult → Result).
Implicit Types mw : string → Request → Step.
Implicit Types next : MethodHandler Result.

(** A middleware that ends in the tail call gives what the handler
    gives on the forwarded method and request. *)
Lemma apply_middleware_next mw next method request m r :
  action (mw method request) = CallNext m r →
  apply_middleware of_tool_result mw next method request = next m r.
Proof. unfold apply_middleware. by intros ->. Qed.

(** A middleware that returns by itself does not consult the handler:
    the outcome is the same whatever the handler is. *)
Lemma apply_middleware_return mw next method request result err :
  action (mw method request) = Return result err →
  apply_middleware of_tool_result mw next method request
  = (of_tool_result result, err).
Proof. unfold apply_middleware. by intros ->. Qed.

End wrapping.

(** ** The enforcement middleware *)

Section enforcement_facts.
Context `{GoLib}.
Import Roots Middleware.
Implicit Types S ghRoots : list Root.

Lemma owner_scan_from ownerLower ghRoots a b :
  fold_left
    (λ '(ownerAllowed, hasOrgRoot) r,
       if decide (Owner r = ownerLower) then
         (true, if decide (Repo r = "") then true else hasOrgRoot)
       else (ownerAllowed, hasOrgRoot))
    ghRoots (a, b)
  = (a || existsb (λ r, bool_decide (Owner r = ownerLower)) ghRoots,
     b || existsb (λ r, bool_decide (Owner r = ownerLower)
                        && bool_decide (Repo r = "")) ghRoots).
Proof.
  revert a b. induction ghRoots as [|r S IH]; intros a b; simpl.
  - by rewrite !orb_false_r.
  - destruct (decide (Owner r = ownerLower)) as [Ho|Ho].
    + rewrite IH, (bool_decide_true _ Ho). simpl.
      destruct (decide (Repo r = "")) as [Hr|Hr].
      * rewrite (bool_decide_true _ Hr). simpl.
        by rewrite !orb_true_r.
      * rewrite (bool_decide_false _ Hr). simpl. by rewrite orb_true_r.
    + by rewrite IH, (bool_decide_false _ Ho).
Qed.

Lemma owner_scan_spec ownerLower ghRoots :
  owner_scan ownerLower ghRoots
  = (existsb (λ r, bool_decide (Owner r = ownerLower)) ghRoots,
     existsb (λ r, bool_decide (Owner r = ownerLower)
                   && bool_decide (Repo r = "")) ghRoots).
Proof. unfold owner_scan. by rewrite owner_scan_from. Qed.

Lemma owner_allowed_iff ownerLower ghRoots :
  existsb (λ r, bool_decide (Owner r = ownerLower)) ghRoots = true
  ↔ ∃ r, r ∈ ghRoots ∧ Owner r = ownerLower.
Proof.
  rewrite existsb_exists. setoid_rewrite bool_decide_eq_true.
  by setoid_rewrite list_elem_of_In.
Qed.

Lemma org_root_iff ownerLower ghRoots :
  existsb (λ r, bool_decide (Owner r = ownerLower)
                && bool_decide (Repo r = "")) ghRoots = true
  ↔ ∃ r, r ∈ ghRoots ∧ Owner r = ownerLower ∧ Repo r = "".
Proof.
  rewrite existsb_exists. setoid_rewrite andb_true_iff.
  setoid_rewrite bool_decide_eq_true. by setoid_rewrite list_elem_of_In.
Qed.

Lemma repo_allowed_iff ownerLower repoLower ghRoots :
  repo_allowed ownerLower repoLower ghRoots = true
  ↔ ∃ r, r ∈ ghRoots ∧ Owner r = ownerLower ∧ Repo r = repoLower.
Proof.
  unfold repo_allowed.
  rewrite existsb_exists. setoid_rewrite andb_true_iff.
  setoid_rewrite bool_decide_eq_true. by setoid_rewrite list_elem_of_In.
Qed.

(** The decision of the enforcement middleware once roots are resolved
    and the owner is a non-empty string. *)
Lemma enforcement_decision host callReq session S args owner :
  Session callReq = Some session →
  resolved_roots host session = Some S →
  Arguments (Params callReq) = RawJSON (JObject args) →
  args !! "owner" = Some (JString owner) → owner ≠ "" →
  let request := CallToolReq callReq in
  let ownerLower := ToLower owner in
  let ownerAllowed :=
    existsb (λ r, bool_decide (Owner r = ownerLower)) S in
  let hasOrgRoot :=
    existsb (λ r, bool_decide (Owner r = ownerLower)
                  && bool_decide (Repo r = "")) S in
  RootsEnforcementMiddleware host "tools/call" request
  = if negb ownerAllowed then
      deny (owner_denied_msg owner S) (Mcp.Name (Params callReq))
           [("owner", owner)]
    else
      match checked_repo args with
      | None => pass "tools/call" request
      | Some repo =>
          if hasOrgRoot || repo_allowed ownerLower (ToLower repo) S
          then pass "tools/call" request
          else deny (repo_denied_msg owner repo S) (Mcp.Name (Params callReq))
                    [("owner", owner); ("repo", repo)]
      end.
Proof.
  intros Hsess Hroots Hargs Howner Hne. simpl.
  unfold RootsEnforcementMiddleware.
  rewrite decide_False by (by intros []).
  rewrite Hsess, Hroots, Hargs. simpl. rewrite Howner.
  rewrite decide_False by done.
  rewrite owner_scan_spec.
  destruct (existsb _ S); simpl; [|done].
  unfold checked_repo.
  destruct (args !! "repo") as [[| | |repo| |]|]; try done.
  destruct (decide (repo = "")); [done|].
  destruct (existsb _ S); [done|]. simpl.
  by destruct (repo_allowed _ _ S).
Qed.

End enforcement_facts.

Section enforcement_scope.
Context `{GoLib}.
Import Roots Middleware.
Implicit Types S : list Root.

Lemma scope_allows_iff S O R :
  scope_allows S O R
  ↔ existsb (λ r, bool_decide (Owner r = ToLower O)) S = true
    ∧ (R = None
       ∨ existsb (λ r, bool_decide (Owner r = ToLower O)
                       && bool_decide (Repo r = "")) S = true
       ∨ ∃ repo, R = Some repo
                 ∧ repo_allowed (ToLower O) (ToLower repo) S = true).
Proof.
  rewrite owner_allowed_iff, org_root_iff.
  setoid_rewrite repo_allowed_iff. unfold scope_allows. split.
  - intros (r & Hr & Ho & Hcase). split; [by exists r|].
    destruct Hcase as [Hrepo|[HR|(r' & Hr' & Ho' & Hrepo)]].
    + right; left. by exists r.
    + by left.
    + right; right. destruct R as [repo|]; [|done].
      simpl in Hrepo. simplify_eq. exists repo. split; [done|by exists r'].
  - intros [(r & Hr & Ho) Hcase].
    destruct Hcase as [HR|[(r0 & Hr0 & Ho0 & Hrepo)|(repo & -> & r' & Hr' & Ho' & Hrepo)]].
    + exists r. auto.
    + exists r0. auto.
    + exists r. split_and!; [done..|]. right; right.
      exists r'. split_and!; [done..|]. simpl. by rewrite Hrepo.
Qed.

Lemma resolved_roots_Some host session S :
  resolved_roots host session = Some S →
  S ≠ [] ∧ ∃ roots, ListRoots session = ListRootsOk roots
                    ∧ S = ParseGitHubRoots roots host.
Proof.
  unfold resolved_roots. destruct (ListRoots session) as [| |roots]; try done.
  repeat case_decide; intros ?; simplify_eq.
  split; [|by exists roots]. intros Hnil. by rewrite Hnil in *.
Qed.

(** A result the middleware returns by itself answers a call the scope
    rule refuses. *)
Lemma enforcement_return_out_of_scope host callReq session S args O result err :
  Session callReq = Some session →
  resolved_roots host session = Some S →
  Arguments (Params callReq) = RawJSON (JObject args) →
  args !! "owner" = Some (JString O) → O ≠ "" →
  action (RootsEnforcementMiddleware host "tools/call" (CallToolReq callReq))
  = Return result err →
  ¬ scope_allows S O (checked_repo args).
Proof.
  intros Hsess Hroots Hargs Howner Hne.
  rewrite (enforcement_decision host callReq session S args O) by done.
  rewrite scope_allows_iff.
  destruct (existsb (λ r, bool_decide (Owner r = ToLower O)) S); simpl;
    [|by intros _ [? _]].
  destruct (checked_repo args) as [repo|]; [|done].
  destruct (existsb (λ r, bool_decide (Owner r = ToLower O)
                          && bool_decide (Repo r = "")) S); [done|].
  destruct (repo_allowed (ToLower O) (ToLower repo) S) eqn:Hrepo; [done|].
  intros _ [_ [?|[?|(? & ? & ?)]]]; simplify_eq. congruence.
Qed.

End enforcement_scope.

(** C1, as amended. For a call with a non-empty string owner O and
    non-empty resolved roots S, the enforcement middleware calls the
    handler, with the request it received, if and only if some root of S
    has the owner lower(O) and (that root's repo is empty, or the repo
    argument is absent, not a string or the empty string, or some root
    for that owner has the repo lower(R)); otherwise it returns a denial
    and does not call the handler. *)
Theorem enforcement_allows_iff `{GoLib}
    (host : string) (callReq : CallToolRequest) (session : ServerSession)
    (S : list Roots.Root) (args : gmap string JValue) (O : string) :
  Session callReq = Some session →
  Middleware.resolved_roots host session = Some S →
  Arguments (Params callReq) = RawJSON (JObject args) →
  args !! "owner" = Some (JString O) → O ≠ "" →
  S ≠ []
  ∧ (action (Middleware.RootsEnforcementMiddleware host "tools/call"
               (CallToolReq callReq))
     = CallNext "tools/call" (CallToolReq callReq)
     ↔ Middleware.scope_allows S O (Middleware.checked_repo args))
  ∧ (action (Middleware.RootsEnforcementMiddleware host "tools/call"
               (CallToolReq callReq))
     = CallNext "tools/call" (CallToolReq callReq)
     ∨ ∃ msg,
         action (Middleware.RootsEnforcementMiddleware host "tools/call"
                   (CallToolReq callReq))
         = Return (NewToolResultError msg) None).
Proof.
  intros Hsess Hroots Hargs Howner Hne.
  split; [by apply resolved_roots_Some in Hroots as [? _]|].
  rewrite (enforcement_decision host callReq session S args O) by done.
  rewrite scope_allows_iff.
  destruct (existsb _ S) eqn:Hown; simpl.
  - destruct (Middleware.checked_repo args) as [repo|]; simpl.
    + destruct (existsb (λ r, bool_decide (Roots.Owner r = ToLower O)
                              && bool_decide (Roots.Repo r = "")) S)
        eqn:Horg; simpl.
      * split; [|by left]. split; [|done]. intros _. auto.
      * destruct (Middleware.repo_allowed _ _ S) eqn:Hrepo; simpl.
        -- split; [|by left]. split; [|done]. intros _.
           split; [done|]. right; right. by exists repo.
        -- split; [|right; eauto]. split; [done|].
           intros [_ [?|[?|(? & ? & ?)]]]; simplify_eq. congruence.
    + split; [|by left]. split; [|done]. intros _. auto.
  - split; [|right; eauto]. split; [done|]. by intros [? _].
Qed.

Lemma enforcement_allows_iff_witness :
  action (@Middleware.RootsEnforcementMiddleware GoAscii.go "github.com"
            "tools/call"
            (Scenario.call ["https://github.com/myorg"]
               (<["owner" := JString "myorg"]>
                  {["repo" := JString "anything"]})))
  = CallNext "tools/call"
      (Scenario.call ["https://github.com/myorg"]
         (<["owner" := JString "myorg"]> {["repo" := JString "anything"]})).
Proof.
  pose proof (@enforcement_allows_iff GoAscii.go "github.com"
    (mkCallToolRequest (Some (Scenario.session_of ["https://github.com/myorg"]))
       (mkParams "echo_args"
          (RawJSON (JObject (<["owner" := JString "myorg"]>
                               {["repo" := JString "anything"]})))))
    (Scenario.session_of ["https://github.com/myorg"])
    [Roots.mkRoot "myorg" "" "https://github.com/myorg" ""]
    (<["owner" := JString "myorg"]> {["repo" := JString "anything"]})
    "myorg" eq_refl eq_refl eq_refl eq_refl) as Hallow.
  destruct Hallow as (_ & Hiff & _); [discriminate|].
  apply Hiff.
  exists (Roots.mkRoot "myorg" "" "https://github.com/myorg" "").
  split; [apply list_elem_of_here|]. split; [reflexivity|]. by left.
Defined.

(** The scope rule as the specification states it fails on the code: a
    call whose repo is the empty string, and a call whose owner is the
    empty string, are passed to the handler although the rule does not
    allow them. *)
Lemma enforcement_scope_rule_fails :
  ¬ (action (@Middleware.RootsEnforcementMiddleware GoAscii.go "github.com"
               "tools/call"
               (Scenario.call ["https://github.com/myorg/repo-a"]
                  (<["owner" := JString "myorg"]> {["repo" := JString ""]})))
     = CallNext "tools/call"
         (Scenario.call ["https://github.com/myorg/repo-a"]
            (<["owner" := JString "myorg"]> {["repo" := JString ""]}))
     ↔ @Middleware.scope_allows GoAscii.go
         (@Roots.ParseGitHubRoots GoAscii.go
            [Some (Roots.mkMcpRoot "https://github.com/myorg/repo-a" "")]
            "github.com")
         "myorg" (Some ""))
  ∧ ¬ (action (@Middleware.RootsEnforcementMiddleware GoAscii.go "github.com"
                 "tools/call"
                 (Scenario.call ["https://github.com/myorg/repo-a"]
                    {["owner" := JString ""]}))
       = CallNext "tools/call"
           (Scenario.call ["https://github.com/myorg/repo-a"]
              {["owner" := JString ""]})
       ↔ @Middleware.scope_allows GoAscii.go
           (@Roots.ParseGitHubRoots GoAscii.go
              [Some (Roots.mkMcpRoot "https://github.com/myorg/repo-a" "")]
              "github.com")
           "" None).
Proof.
  split; intros [Hallow _].
  - destruct (Hallow eq_refl) as (r & Hr & _ & Hcase).
    vm_compute in Hr. apply list_elem_of_singleton in Hr as ->.
    destruct Hcase as [Hrepo|[HR|(r' & Hr' & _ & Hrepo)]];
      [discriminate..|].
    vm_compute in Hr'. apply list_elem_of_singleton in Hr' as ->.
    discriminate.
  - destruct (Hallow eq_refl) as (r & Hr & Ho & _).
    vm_compute in Hr. apply list_elem_of_singleton in Hr as ->.
    discriminate.
Qed.

Section enforcement_outcomes.
Context `{GoLib}.
Import Roots Middleware.
Implicit Types S : list Root.

(** A payload that decodes to an object with a member is the encoding of
    that object. *)
Lemma decoded_args_member raw args key v :
  decoded_args raw = Some args → args !! key = Some v →
  raw = RawJSON (JObject args).
Proof.
  unfold decoded_args.
  destruct raw as [| |[]]; simpl; intros ? Hkey; simplify_eq; try done.
Qed.

(** The enforcement middleware returns a result of its own only on the
    checked path: a tool call on a session with resolved roots whose
    owner argument is a non-empty string. *)
Lemma enforcement_return_inv host method request result err :
  action (RootsEnforcementMiddleware host method request) = Return result err →
  ∃ callReq session S args O,
    method = "tools/call" ∧ request = CallToolReq callReq
    ∧ Session callReq = Some session
    ∧ resolved_roots host session = Some S
    ∧ Arguments (Params callReq) = RawJSON (JObject args)
    ∧ args !! "owner" = Some (JString O) ∧ O ≠ "".
Proof.
  unfold RootsEnforcementMiddleware.
  destruct (decide (method ≠ "tools/call")) as [|Hm]; [done|].
  apply dec_stable in Hm.
  destruct request as [callReq|]; [|done].
  destruct (Session callReq) as [session|] eqn:Hsess; [|done].
  destruct (resolved_roots host session) as [S|] eqn:Hroots; [|done].
  destruct (Arguments (Params callReq)) as [| |[| | | | |args]] eqn:Hraw;
    try done.
  simpl.
  destruct (args !! "owner") as [[| | |O| |]|] eqn:Howner; try done.
  destruct (decide (O = "")) as [|HO]; [done|].
  intros _. by exists callReq, session, S, args, O.
Qed.

End enforcement_outcomes.

(** C9. When the arguments of a call have an owner member that is not a
    string, or is the empty string, the enforcement middleware calls the
    handler with the request it received, whatever the roots are; it
    logs no denial. *)
Theorem enforcement_skips_unusable_owner `{GoLib}
    (host method : string) (request : Request)
    (args : gmap string JValue) (v : JValue) :
  request_args request = Some args →
  args !! "owner" = Some v →
  (∀ owner, v = JString owner → owner = "") →
  action (Middleware.RootsEnforcementMiddleware host method request)
  = CallNext method request
  ∧ ∀ l, l ∈ logged (Middleware.RootsEnforcementMiddleware host method request) →
         log_level l = LevelDebug.
Proof.
  intros Hargs Howner Hv.
  destruct request as [callReq|]; [|done]. simpl in Hargs.
  pose proof (decoded_args_member _ _ _ _ Hargs Howner) as Hraw.
  unfold Middleware.RootsEnforcementMiddleware.
  case_decide; [split; [done|by intros ? ?%elem_of_nil]|].
  destruct (Session callReq) as [session|];
    [|split; [done|by intros ? ?%elem_of_nil]].
  destruct (Middleware.resolved_roots host session) as [S|].
  - rewrite Hraw. simpl. rewrite Howner.
    destruct v as [| | |owner| |];
      try (split; [done|by intros ? ?%elem_of_nil]).
    rewrite (Hv owner eq_refl). simpl.
    split; [done|by intros ? ?%elem_of_nil].
  - split; [done|]. simpl. unfold Middleware.list_roots_failure.
    destruct (ListRoots session); intros l Hl;
      [|by apply elem_of_nil in Hl..].
    by apply list_elem_of_singleton in Hl as ->.
Qed.

Lemma enforcement_skips_unusable_owner_witness :
  action (@Middleware.RootsEnforcementMiddleware GoAscii.go "github.com"
            "tools/call"
            (Scenario.call ["https://github.com/myorg/myrepo"]
               (<["owner" := JBool true]> {["repo" := JString "other"]})))
  = CallNext "tools/call"
      (Scenario.call ["https://github.com/myorg/myrepo"]
         (<["owner" := JBool true]> {["repo" := JString "other"]})).
Proof.
  refine (proj1 (@enforcement_skips_unusable_owner GoAscii.go "github.com"
    "tools/call"
    (Scenario.call ["https://github.com/myorg/myrepo"]
       (<["owner" := JBool true]> {["repo" := JString "other"]}))
    (<["owner" := JBool true]> {["repo" := JString "other"]})
    (JBool true) eq_refl eq_refl _)).
  intros owner Howner. discriminate Howner.
Defined.

Lemma enforcement_action_cases `{GoLib}
    (host method : string) (request : Request) :
  action (Middleware.RootsEnforcementMiddleware host method request)
  = CallNext method request
  ∨ ∃ msg,
      action (Middleware.RootsEnforcementMiddleware host method request)
      = Return (NewToolResultError msg) None.
Proof.
  unfold Middleware.RootsEnforcementMiddleware, Middleware.deny, pass.
  repeat case_match; simpl; eauto.
Qed.

(** C10. The enforcement middleware never changes the call: it either
    calls the handler with the method and the request (payload included)
    it received, or returns an error result without calling it. *)
Theorem enforcement_forwards_unchanged `{GoLib}
    (host method : string) (request : Request) :
  match action (Middleware.RootsEnforcementMiddleware host method request) with
  | CallNext m r => m = method ∧ r = request
  | Return result err => err = None ∧ ∃ msg, result = NewToolResultError msg
  end.
Proof.
  destruct (enforcement_action_cases host method request) as [->|[msg ->]];
    eauto.
Qed.

(** ** Denials *)

Section denial_facts.
Context `{GoLib}.
Import Roots Middleware.
Implicit Types S : list Root.









End denial_facts.



(** ** The injection middleware *)

Section injection_facts.
Context `{GoLib}.
Import Roots Middleware.
Implicit Types S : list Root.

Lemma all_same_owner_iff commonOwner others :
  all_same_owner commonOwner others = true
  ↔ ∀ r, r ∈ others → Owner r = commonOwner.
Proof.
  unfold all_same_owner. rewrite forallb_forall.
  setoid_rewrite bool_decide_eq_true. by setoid_rewrite list_elem_of_In.
Qed.

Lemma resolved_roots_None host session :
  (∃ err, ListRoots session = ListRootsError err)
  ∨ ListRoots session = ListRootsNil
  ∨ (∃ roots, ListRoots session = ListRootsOk roots
              ∧ ParseGitHubRoots roots host = []) →
  resolved_roots host session = None.
Proof.
  unfold resolved_roots.
  intros [[err ->]|[->|(roots & -> & Hnil)]]; [done..|].
  rewrite Hnil. simpl. by case_decide.
Qed.

(** The injection middleware always ends in the tail call. *)
Lemma injection_calls_next host method request :
  ∃ request',
    action (RootsMiddleware host method request) = CallNext method request'.
Proof.
  unfold RootsMiddleware, pass. repeat case_match; simpl; eauto.
Qed.

(** What the injection does once the roots are resolved, share one
    owner, and the payload decodes. *)
Lemma injection_decision host callReq session first others args :
  Session callReq = Some session →
  resolved_roots host session = Some (first :: others) →
  all_same_owner (Owner first) others = true →
  decoded_args (Arguments (Params callReq)) = Some args →
  action (RootsMiddleware host "tools/call" (CallToolReq callReq))
  = CallNext "tools/call"
      (let '(args', modified) :=
         inject_defaults (Owner first) (repo_level_roots (first :: others))
           args in
       if modified
       then CallToolReq (with_arguments callReq (RawJSON (JObject args')))
       else CallToolReq callReq).
Proof.
  intros Hsess Hroots Hsame Hargs.
  unfold RootsMiddleware.
  rewrite decide_False by (by intros []).
  rewrite Hsess, Hroots, Hsame. simpl negb. cbv iota.
  assert ((if raw_len_is_zero (Arguments (Params callReq))
           then Some None
           else json_Unmarshal (Arguments (Params callReq)))
          = Some (Some args)
          ∨ ((if raw_len_is_zero (Arguments (Params callReq))
              then Some None
              else json_Unmarshal (Arguments (Params callReq)))
             = Some None ∧ args = ∅)) as Hdec.
  { unfold decoded_args in Hargs.
    destruct (Arguments (Params callReq)) as [| |[]]; simpl in *;
      simplify_eq; auto. }
  destruct Hdec as [->|[-> ->]]; simpl default;
    by destruct (inject_defaults _ _ _) as [args' []].
Qed.

(** The arguments after [inject_defaults]: a member already present
    keeps its value, an absent owner becomes the common owner, an absent
    repo becomes the repo of the only repository-level root, if there is
    exactly one, and every other member is untouched. *)
Lemma inject_defaults_lookup commonOwner repoRoots args :
  let args' := (inject_defaults commonOwner repoRoots args).1 in
  args' !! "owner" = Some (default (JString commonOwner) (args !! "owner"))
  ∧ args' !! "repo"
    = match args !! "repo", repoRoots with
      | Some v, _ => Some v
      | None, [only] => Some (JString (Repo only))
      | None, _ => None
      end
  ∧ ∀ k, k ≠ "owner" → k ≠ "repo" → args' !! k = args !! k.
Proof.
  unfold inject_defaults.
  destruct (args !! "owner") as [ownerRaw|] eqn:Howner;
    destruct repoRoots as [|only [|]]; simpl;
    try (destruct (args !! "repo") as [repoRaw|] eqn:Hrepo);
    rewrite ?(lookup_insert_ne args "owner" "repo") by done;
    rewrite ?Hrepo; simpl;
    split_and!; intros;
    rewrite ?lookup_insert_eq, ?lookup_insert_ne by done;
    rewrite ?lookup_insert_eq, ?lookup_insert_ne by done; done.
Qed.

(** The flag is clear exactly when nothing was assigned. *)
Lemma inject_defaults_unmodified commonOwner repoRoots args :
  (inject_defaults commonOwner repoRoots args).2 = false →
  (inject_defaults commonOwner repoRoots args).1 = args.
Proof.
  unfold inject_defaults.
  destruct (args !! "owner") as [ownerRaw|] eqn:Howner;
    destruct repoRoots as [|only [|]]; simpl; try done;
    destruct (_ !! "repo"); done.
Qed.

End injection_facts.

(** C2. On a session whose resolved roots all have one owner, the
    injection middleware calls the handler with arguments in which an
    absent owner is set to that owner and a present one keeps its value,
    an absent repo is set to the repo of the only repository-level root
    when there is exactly one and stays absent otherwise, a present repo
    keeps its value, and every other member is unchanged; when the roots
    have two or more distinct owners the request is forwarded as it
    came. *)
Theorem injection_fills_only_absent `{GoLib}
    (host : string) (callReq : CallToolRequest) (session : ServerSession)
    (S : list Roots.Root) :
  Session callReq = Some session →
  Middleware.resolved_roots host session = Some S →
  ((∃ r1 r2, r1 ∈ S ∧ r2 ∈ S ∧ Roots.Owner r1 ≠ Roots.Owner r2) →
   action (Middleware.RootsMiddleware host "tools/call" (CallToolReq callReq))
   = CallNext "tools/call" (CallToolReq callReq))
  ∧ (∀ common args,
       (∀ r, r ∈ S → Roots.Owner r = common) →
       decoded_args (Arguments (Params callReq)) = Some args →
       ∃ callReq' args',
         action (Middleware.RootsMiddleware host "tools/call"
                   (CallToolReq callReq))
         = CallNext "tools/call" (CallToolReq callReq')
         ∧ Session callReq' = Session callReq
         ∧ Mcp.Name (Params callReq') = Mcp.Name (Params callReq)
         ∧ decoded_args (Arguments (Params callReq')) = Some args'
         ∧ args' !! "owner"
           = Some (default (JString common) (args !! "owner"))
         ∧ args' !! "repo"
           = match args !! "repo", filter (λ r, Roots.Repo r ≠ "") S with
             | Some v, _ => Some v
             | None, [only] => Some (JString (Roots.Repo only))
             | None, _ => None
             end
         ∧ ∀ k, k ≠ "owner" → k ≠ "repo" → args' !! k = args !! k).
Proof.
  intros Hsess Hroots.
  destruct (resolved_roots_Some _ _ _ Hroots) as [Hne _].
  destruct S as [|first others]; [done|]. split.
  - intros (r1 & r2 & Hr1 & Hr2 & Hdiff).
    unfold Middleware.RootsMiddleware.
    rewrite decide_False by (by intros []).
    rewrite Hsess, Hroots.
    destruct (Middleware.all_same_owner (Roots.Owner first) others) eqn:Hsame;
      [|done].
    rewrite all_same_owner_iff in Hsame.
    assert (∀ r, r ∈ first :: others → Roots.Owner r = Roots.Owner first)
      as Hall.
    { intros r [->|Hr]%elem_of_cons; [done|by apply Hsame]. }
    destruct Hdiff. by rewrite (Hall r1), (Hall r2).
  - intros common args Hcommon Hargs.
    assert (Roots.Owner first = common) as Hfirst
      by apply Hcommon, list_elem_of_here.
    assert (Middleware.all_same_owner (Roots.Owner first) others = true)
      as Hsame.
    { apply all_same_owner_iff. intros r Hr. rewrite Hfirst.
      by apply Hcommon, list_elem_of_further. }
    rewrite (injection_decision host callReq session first others args)
      by done.
    pose proof (inject_defaults_lookup (Roots.Owner first)
                  (Middleware.repo_level_roots (first :: others)) args)
      as (Howner & Hrepo & Hother).
    pose proof (inject_defaults_unmodified (Roots.Owner first)
                  (Middleware.repo_level_roots (first :: others)) args)
      as Hsame_args.
    rewrite Hfirst in *.
    destruct (Middleware.inject_defaults _ _ _) as [args' [|]];
      simpl in Howner, Hrepo, Hother, Hsame_args.
    + exists (Middleware.with_arguments callReq (RawJSON (JObject args'))),
             args'.
      by split_and!.
    + rewrite Hsame_args in * by done. exists callReq, args. by split_and!.
Qed.

Lemma injection_fills_only_absent_witness :
  ∃ callReq' args',
    action (@Middleware.RootsMiddleware GoAscii.go "github.com" "tools/call"
              (Scenario.call ["https://github.com/myorg"]
                 {["repo" := JString "x"]}))
    = CallNext "tools/call" (CallToolReq callReq')
    ∧ decoded_args (Arguments (Params callReq')) = Some args'
    ∧ args' !! "owner" = Some (JString "myorg")
    ∧ args' !! "repo" = Some (JString "x").
Proof.
  pose proof (@injection_fills_only_absent GoAscii.go "github.com"
    (mkCallToolRequest (Some (Scenario.session_of ["https://github.com/myorg"]))
       (mkParams "echo_args" (RawJSON (JObject {["repo" := JString "x"]}))))
    (Scenario.session_of ["https://github.com/myorg"])
    [Roots.mkRoot "myorg" "" "https://github.com/myorg" ""]
    eq_refl eq_refl) as [_ Hinject].
  destruct (Hinject "myorg" {["repo" := JString "x"]})
    as (callReq' & args' & Hact & _ & _ & Hdec & Howner & Hrepo & _).
  - intros r Hr. apply list_elem_of_singleton in Hr. by rewrite Hr.
  - reflexivity.
  - exists callReq', args'. split_and!; [exact Hact|exact Hdec| |].
    + exact Howner.
    + exact Hrepo.
Defined.

(** C5. Scenario A on the code: with the single root
    [https://github.com/octocat/Hello-World] and the arguments
    [{state: open}], the injected repo is the lowercased [hello-world],
    not [Hello-World]. *)
Theorem scenario_A_injects_lowercased_repo :
  ∃ callReq',
    action (@Middleware.RootsMiddleware GoAscii.go "github.com" "tools/call"
              (Scenario.call ["https://github.com/octocat/Hello-World"]
                 {["state" := JString "open"]}))
    = CallNext "tools/call" (CallToolReq callReq')
    ∧ decoded_args (Arguments (Params callReq'))
      = Some (<["owner" := JString "octocat"]>
                (<["repo" := JString "hello-world"]>
                   {["state" := JString "open"]}))
    ∧ decoded_args (Arguments (Params callReq'))
      ≠ Some (<["owner" := JString "octocat"]>
                (<["repo" := JString "Hello-World"]>
                   {["state" := JString "open"]})).
Proof.
  eexists. split; [vm_compute; reflexivity|]. split; [vm_compute; reflexivity|].
  intros Heq. apply (f_equal (λ m, m ≫= (.!! "repo"))) in Heq.
  vm_compute in Heq. discriminate.
Qed.

(** C6. Soft failures never end the pipeline: when listing the roots
    fails, no root resolves, or the argument payload does not decode,
    both middlewares call the handler with the request they received;
    the injection middleware always ends in the call of the handler, and
    the enforcement middleware returns a result of its own only when the
    scope rule refuses the call. *)
Theorem soft_failures_pass_through `{GoLib}
    (host method : string) (request : Request) :
  (∀ callReq session,
     request = CallToolReq callReq → Session callReq = Some session →
     (∃ err, ListRoots session = ListRootsError err)
     ∨ ListRoots session = ListRootsNil
     ∨ (∃ roots, ListRoots session = ListRootsOk roots
                 ∧ Roots.ParseGitHubRoots roots host = [])
     ∨ (raw_len_is_zero (Arguments (Params callReq)) = false
        ∧ json_Unmarshal (Arguments (Params callReq)) = None) →
     action (Middleware.RootsMiddleware host method request)
     = CallNext method request
     ∧ action (Middleware.RootsEnforcementMiddleware host method request)
       = CallNext method request)
  ∧ (∃ request',
       action (Middleware.RootsMiddleware host method request)
       = CallNext method request')
  ∧ (∀ result err,
       action (Middleware.RootsEnforcementMiddleware host method request)
       = Return result err →
       err = None
       ∧ ∃ callReq session S args O msg,
           request = CallToolReq callReq
           ∧ Session callReq = Some session
           ∧ Middleware.resolved_roots host session = Some S
           ∧ request_args request = Some args
           ∧ args !! "owner" = Some (JString O)
           ∧ ¬ Middleware.scope_allows S O (Middleware.checked_repo args)
           ∧ result = NewToolResultError msg).
Proof.
  split_and!.
  - intros callReq session -> Hsess Hsoft.
    assert (Middleware.resolved_roots host session = None
            ∨ (raw_len_is_zero (Arguments (Params callReq)) = false
               ∧ json_Unmarshal (Arguments (Params callReq)) = None))
      as [Hnone|[Hlen Hbad]].
    { destruct Hsoft as [?|[?|[?|?]]]; [left..|by right];
        apply resolved_roots_None; auto. }
    + unfold Middleware.RootsMiddleware, Middleware.RootsEnforcementMiddleware.
      rewrite Hsess, Hnone. by case_decide.
    + unfold Middleware.RootsMiddleware, Middleware.RootsEnforcementMiddleware.
      rewrite Hsess, Hlen, Hbad. split.
      * case_decide; [done|].
        destruct (Middleware.resolved_roots host session) as [[|first others]|];
          try done.
        by destruct (negb _).
      * case_decide; [done|].
        by destruct (Middleware.resolved_roots host session).
  - apply injection_calls_next.
  - intros result err Hret.
    destruct (enforcement_return_inv _ _ _ _ _ Hret)
      as (callReq & session & S & args & O & -> & -> & Hsess & Hroots & Hraw
          & Howner & HO).
    pose proof (enforcement_return_out_of_scope host callReq session S args O
                  result err Hsess Hroots Hraw Howner HO Hret) as Hrefused.
    destruct (enforcement_action_cases host "tools/call" (CallToolReq callReq))
      as [Hnext|[msg Hmsg]]; [congruence|].
    rewrite Hmsg in Hret. simplify_eq. split; [done|].
    exists callReq, session, S, args, O, msg. split_and!; try done.
    simpl. by rewrite Hraw.
Qed.

Lemma soft_failures_pass_through_witness :
  action (@Middleware.RootsEnforcementMiddleware GoAscii.go "github.com"
            "tools/call"
            (CallToolReq
               (mkCallToolRequest
                  (Some (mkSession (ListRootsError "roots not supported")))
                  (mkParams "echo_args"
                     (RawJSON (JObject {["owner" := JString "any-org"]}))))))
  = CallNext "tools/call"
      (CallToolReq
         (mkCallToolRequest
            (Some (mkSession (ListRootsError "roots not supported")))
            (mkParams "echo_args"
               (RawJSON (JObject {["owner" := JString "any-org"]}))))).
Proof.
  refine (proj2 (proj1 (@soft_failures_pass_through GoAscii.go "github.com"
    "tools/call" _)
    (mkCallToolRequest
       (Some (mkSession (ListRootsError "roots not supported")))
       (mkParams "echo_args"
          (RawJSON (JObject {["owner" := JString "any-org"]}))))
    (mkSession (ListRootsError "roots not supported"))
    eq_refl eq_refl _)).
  left. by exists "roots not supported".
Defined.

(** ** The schema rewrite *)

Section rewrite_facts.
Context {SchemaRest ToolRest ServerRest : Type}.
Import Inventory.
Implicit Types h : gmap loc (Schema SchemaRest).
Implicit Types t : ServerTool ToolRest ServerRest.
Implicit Types props : gmap string (option loc).

Lemma alloc_spec (s : Schema SchemaRest) h l h' :
  alloc s h = (l, h') → h !! l = None ∧ h' !! l = Some s ∧ h ⊆ h'.
Proof.
  unfold alloc. intros [= <- <-].
  assert (h !! fresh (dom h) = None) as Hfresh
    by apply not_elem_of_dom, is_fresh.
  split_and!; [done|apply lookup_insert_eq|by apply insert_subseteq].
Qed.

Lemma property_rewritten_weaken h0 h h1 h' key old new :
  h0 ⊆ h → h1 ⊆ h' →
  property_rewritten h h1 key old new → property_rewritten h0 h' key old new.
Proof.
  intros H0 H1. unfold property_rewritten.
  destruct old as [[p|]|]; [|done..]. case_decide; [|done].
  intros Hprop prop Hp.
  destruct (Hprop prop) as (p' & -> & Hfresh & Hcopy);
    [by eapply lookup_weaken|].
  exists p'. split_and!; [done| |by eapply lookup_weaken].
  by eapply lookup_weaken_None.
Qed.

Lemma annotate_spec key props h props' h' :
  key = "owner" ∨ key = "repo" →
  annotate key props h = (props', h') →
  h ⊆ h'
  ∧ (∀ k, k ≠ key → props' !! k = props !! k)
  ∧ property_rewritten h h' key (props !! key) (props' !! key).
Proof.
  intros Hkey. unfold annotate, property_rewritten.
  destruct (props !! key) as [[p|]|] eqn:Hlook;
    [|by intros [= <- <-]..].
  rewrite decide_True by done.
  destruct (h !! p) as [prop|] eqn:Hp.
  - destruct (alloc (with_advisory prop) h) as [p' h1] eqn:Halloc.
    apply alloc_spec in Halloc as (Hfresh & Hcopy & Hsub).
    intros [= <- <-]. split_and!; [done| |].
    + intros k Hk. by rewrite lookup_insert_ne.
    + intros prop' [= <-]. exists p'. by rewrite lookup_insert_eq.
  - intros [= <- <-]. split_and!; [done..|]. by intros prop [=].
Qed.

Lemma copy_properties_spec properties h properties' h' :
  copy_properties properties h = (properties', h') →
  h ⊆ h'
  ∧ match properties, properties' with
    | None, None => True
    | Some props, Some props' =>
        ∀ key, property_rewritten h h' key (props !! key) (props' !! key)
    | _, _ => False
    end.
Proof.
  unfold copy_properties. destruct properties as [props|];
    [|by intros [= <- <-]].
  destruct (annotate "owner" props h) as [props1 h1] eqn:Ha1.
  destruct (annotate "repo" props1 h1) as [props2 h2] eqn:Ha2.
  apply annotate_spec in Ha1 as (Hsub1 & Hother1 & Hrw1); [|by left].
  apply annotate_spec in Ha2 as (Hsub2 & Hother2 & Hrw2); [|by right].
  intros [= <- <-]. split; [by etrans|]. intros key.
  destruct (decide (key = "repo")) as [->|Hnr].
  - rewrite <- (Hother1 "repo") by done.
    by apply (property_rewritten_weaken h h1 h2 h2).
  - rewrite (Hother2 key) by done.
    destruct (decide (key = "owner")) as [->|Hno].
    + by apply (property_rewritten_weaken h h h1 h2).
    + rewrite (Hother1 key) by done. unfold property_rewritten.
      destruct (props !! key) as [[?|]|]; try done.
      rewrite decide_False; [done|]. by intros [?|?].
Qed.

(** One iteration: the heap only grows, and the entry is either the
    tool itself or a copy that points to a rewritten copy of its
    schema. *)
Lemma make_optional_spec t h t' h' :
  make_optional t h = (t', h') →
  h ⊆ h'
  ∧ ((t' = t ∧ ∀ l schema,
        InputSchema (Tool t) = SchemaPtr (Some l) → h !! l = Some schema →
        ("owner" ∉ Required schema) ∧ ("repo" ∉ Required schema))
     ∨ ∃ l schema l' schema',
         InputSchema (Tool t) = SchemaPtr (Some l) ∧ h !! l = Some schema
         ∧ ("owner" ∈ Required schema ∨ "repo" ∈ Required schema)
         ∧ Name (Tool t') = Name (Tool t)
         ∧ tool_rest (Tool t') = tool_rest (Tool t)
         ∧ server_rest t' = server_rest t
         ∧ InputSchema (Tool t') = SchemaPtr (Some l')
         ∧ h !! l' = None ∧ h' !! l' = Some schema'
         ∧ schema_rewritten h h' schema schema').
Proof.
  unfold make_optional.
  destruct (InputSchema (Tool t)) as [[l|]|] eqn:Hin;
    [|intros [= <- <-]; split; [done|left; split; [done|by intros ?? [=]]]..].
  destruct (h !! l) as [schema|] eqn:Hl;
    [|intros [= <- <-]; split; [done|left; split; [done|]];
      intros ?? [= <-]; by rewrite Hl].
  destruct (negb (bool_decide ("owner" ∈ Required schema))
            && negb (bool_decide ("repo" ∈ Required schema))) eqn:Hnone.
  { intros [= <- <-]. split; [done|]. left. split; [done|].
    intros ?? [= <-]. rewrite Hl. intros [= <-].
    apply andb_true_iff in Hnone as [Ho Hr].
    apply negb_true_iff, bool_decide_eq_false in Ho, Hr. done. }
  assert ("owner" ∈ Required schema ∨ "repo" ∈ Required schema) as Hreq.
  { apply andb_false_iff in Hnone as [Ho|Hr].
    - left. by apply negb_false_iff, bool_decide_eq_true in Ho.
    - right. by apply negb_false_iff, bool_decide_eq_true in Hr. }
  destruct (copy_properties (Properties schema) h) as [newProperties h1]
    eqn:Hcopy.
  apply copy_properties_spec in Hcopy as [Hsub1 Hprops].
  match goal with
  | |- context [alloc ?s h1] =>
      destruct (alloc s h1) as [l' h2] eqn:Halloc;
      apply alloc_spec in Halloc as (Hfresh & Hnew & Hsub2)
  end.
  intros [= <- <-]. split; [by etrans|]. right.
  eexists l, schema, l', _.
  split_and!; try done; [by eapply lookup_weaken_None|].
  unfold schema_rewritten. simpl. split_and!; try done.
  destruct (Properties schema) as [props|], newProperties as [props'|];
    try done.
  intros key. by apply (property_rewritten_weaken h h h1 h2).
Qed.


Lemma untouched_weaken h h1 t : h ⊆ h1 → untouched h t → untouched h1 t.
Proof.
  unfold untouched. intros Hsub.
  destruct (InputSchema (Tool t)) as [[l|]|]; [|done..].
  intros (schema & Hl & Hno). exists schema. split; [|done].
  by eapply lookup_weaken.
Qed.

End rewrite_facts.



(** ** The repository's tests, replayed on the embedding *)

Section replayed_tests.
Import Roots Middleware Scenario.
Existing Instance GoAscii.go.

(** [TestParseGitHubRootURI], row by row. *)
Example test_ParseGitHubRootURI :
  (λ '(uri, host), ok_value (Roots.ParseGitHubRootURI uri host)) <$>
    [ ("https://github.com/octocat/Hello-World", "github.com");
      ("git://github.com/octocat/Hello-World", "github.com");
      ("https://github.com/octocat/Hello-World.git", "github.com");
      ("https://github.com/octocat/Hello-World/", "github.com");
      ("https://github.com/octocat/Hello-World/tree/main", "github.com");
      ("https://github.com/octocat/Hello-World", "");
      ("https://github.enterprise.com/myorg/myrepo", "github.enterprise.com");
      ("https://GitHub.com/octocat/Hello-World", "github.com");
      ("https://gitlab.com/octocat/Hello-World", "github.com");
      ("ftp://github.com/octocat/Hello-World", "github.com");
      ("https://github.com", "github.com");
      ("https://github.com/octocat", "github.com");
      ("https://github.com/myorg/", "github.com");
      ("https://github.enterprise.com/myorg", "github.enterprise.com");
      ("", "github.com");
      ("://not-a-url", "github.com");
      ("file:///home/user/repo", "github.com");
      ("http://github.com/octocat/Hello-World", "github.com");
      ("git://github.com/octocat/Hello-World.git", "github.com");
      ("https://github.com/OctoCat/My-Repo", "github.com") ]
  = [ Some ("octocat", "hello-world");
      Some ("octocat", "hello-world");
      Some ("octocat", "hello-world");
      Some ("octocat", "hello-world");
      Some ("octocat", "hello-world");
      Some ("octocat", "hello-world");
      Some ("myorg", "myrepo");
      Some ("octocat", "hello-world");
      None;
      None;
      None;
      Some ("octocat", "");
      Some ("myorg", "");
      Some ("myorg", "");
      None;
      None;
      None;
      Some ("octocat", "hello-world");
      Some ("octocat", "hello-world");
      Some ("octocat", "my-repo") ].
Proof. vm_compute. reflexivity. Qed.

(** [TestParseGitHubRoots]: nil entries and roots of other ecosystems are
    skipped, organization-level roots are kept. *)
Example test_ParseGitHubRoots :
  (λ r, (Owner r, Repo r, Roots.Name r)) <$>
    ParseGitHubRoots
      [ None;
        Some (mkMcpRoot "https://github.com/myorg" "My Org");
        Some (mkMcpRoot "file:///home/user/project" "");
        Some (mkMcpRoot "s3://my-bucket/data" "");
        Some (mkMcpRoot "https://github.com/octocat/Hello-World" "Hello World") ]
      "github.com"
  = [ ("myorg", "", "My Org"); ("octocat", "hello-world", "Hello World") ].
Proof. vm_compute. reflexivity. Qed.

(** [TestRootsEnforcementMiddleware_Integration]: which calls reach the
    handler. *)
Example test_RootsEnforcementMiddleware :
  (λ '(uris, owner, repo),
     calls_next
       (RootsEnforcementMiddleware "github.com" "tools/call"
          (call uris (<["owner" := JString owner]> {["repo" := JString repo]}))))
  <$> [ (["https://github.com/octocat/Hello-World"], "octocat", "Hello-World");
        (["https://github.com/octocat/Hello-World"], "evil-org", "secret-repo");
        (["https://github.com/myorg/repo-a"], "myorg", "repo-b");
        (["https://github.com/myorg"], "myorg", "any-repo");
        (["https://github.com/myorg"], "other-org", "repo");
        (["https://github.com/myorg"; "https://github.com/myorg/main-app"],
         "myorg", "any-repo");
        (["https://github.com/myorg/repo-a"; "https://github.com/myorg/repo-b"],
         "myorg", "repo-a");
        (["https://github.com/myorg/repo-a"; "https://github.com/myorg/repo-b"],
         "myorg", "repo-b");
        (["https://github.com/myorg/repo-a"; "https://github.com/myorg/repo-b"],
         "myorg", "repo-c");
        ([], "any-org", "any-repo");
        (["https://github.com/MyOrg/MyRepo"], "myorg", "myrepo");
        (["https://github.com/org-a/repo"; "https://github.com/org-b/repo"],
         "org-a", "repo");
        (["https://github.com/org-a/repo"; "https://github.com/org-b/repo"],
         "org-b", "repo");
        (["https://github.com/org-a/repo"; "https://github.com/org-b/repo"],
         "org-c", "repo") ]
  = [ true; false; false; true; false; true; true; true; false; true; true;
      true; true; false ].
Proof. vm_compute. reflexivity. Qed.

(** The tool without owner and repo passes through. *)
Example test_enforcement_without_owner :
  calls_next
    (RootsEnforcementMiddleware "github.com" "tools/call"
       (call ["https://github.com/myorg/myrepo"] {["state" := JString "open"]}))
  = true.
Proof. vm_compute. reflexivity. Qed.

(** [TestRootsMiddleware_Integration], second case: explicit owner and
    repo are not overridden. *)
Example test_injection_keeps_explicit :
  echoed
    (RootsMiddleware "github.com" "tools/call"
       (call ["https://github.com/octocat/Hello-World"]
          (<["owner" := JString "myorg"]> {["repo" := JString "myrepo"]})))
  = Some (<["owner" := JString "myorg"]> {["repo" := JString "myrepo"]}).
Proof. vm_compute. reflexivity. Qed.

(** [TestRootsMiddleware_OrgRoot]: an organization-level root injects the
    owner only. *)
Example test_injection_org_root :
  echoed
    (RootsMiddleware "github.com" "tools/call"
       (call ["https://github.com/myorg"] {["repo" := JString "specific-repo"]}))
  = Some (<["owner" := JString "myorg"]> {["repo" := JString "specific-repo"]})
  ∧ echoed
      (RootsMiddleware "github.com" "tools/call"
         (call ["https://github.com/myorg"] {["state" := JString "open"]}))
    = Some (<["owner" := JString "myorg"]> {["state" := JString "open"]}).
Proof. split; vm_compute; reflexivity. Qed.

(** [TestRootsMiddleware_MultipleOrgs] and [TestRootsMiddleware_NoRoots]:
    nothing is injected. *)
Example test_injection_ambiguous :
  echoed
    (RootsMiddleware "github.com" "tools/call"
       (call ["https://github.com/org-a/repo"; "https://github.com/org-b/repo"]
          {["state" := JString "open"]}))
  = Some {["state" := JString "open"]}
  ∧ echoed
      (RootsMiddleware "github.com" "tools/call"
         (call [] {["state" := JString "open"]}))
    = Some {["state" := JString "open"]}.
Proof. split; vm_compute; reflexivity. Qed.

(** [TestRootsMiddleware_OrgPlusRepoRoot] and
    [TestRootsMiddleware_MultipleReposSameOrg]: one repository-level root
    beside an organization-level one injects both members, two
    repository-level roots inject the owner only. *)
Example test_injection_repo_roots :
  echoed
    (RootsMiddleware "github.com" "tools/call"
       (call ["https://github.com/myorg"; "https://github.com/myorg/main-app"]
          {["state" := JString "open"]}))
  = Some (<["owner" := JString "myorg"]>
            (<["repo" := JString "main-app"]> {["state" := JString "open"]}))
  ∧ echoed
      (RootsMiddleware "github.com" "tools/call"
         (call ["https://github.com/myorg/repo-a";
                "https://github.com/myorg/repo-b"]
            {["state" := JString "open"]}))
    = Some (<["owner" := JString "myorg"]> {["state" := JString "open"]}).
Proof. split; vm_compute; reflexivity. Qed.

End replayed_tests.

(** * Further properties of the code *)

(** ** The ASCII instance of the library *)

Lemma lower_byte_idem (c : ascii) :
  GoAscii.lower_byte (GoAscii.lower_byte c) = GoAscii.lower_byte c.
Proof. destruct c as [[] [] [] [] [] [] [] []]; reflexivity. Qed.

Lemma ascii_ToLower_idem (s : string) :
  GoAscii.ToLower (GoAscii.ToLower s) = GoAscii.ToLower s.
Proof.
  induction s as [|c s IH]; [done|]. simpl. by rewrite lower_byte_idem, IH.
Qed.

Lemma ascii_ToLower_nonempty (s : string) : GoAscii.ToLower s = "" → s = "".
Proof. by destruct s. Qed.

(** ** The resolver *)

Section resolver_facts.
Context `{GoLib}.
Import Roots.

Lemma cut_Some sep s a b :
  cut sep s = Some (a, b) → has_byte sep a = false ∧ s = a +:+ String sep b.
Proof.
  revert a. induction s as [|c s IH]; intros a; [done|]. simpl.
  destruct (decide (c = sep)) as [->|Hc].
  - by intros [= <- <-].
  - destruct (cut sep s) as [[a' b']|]; [|done]. intros [= <- <-].
    destruct (IH a' eq_refl) as [Hno ->]. split; [|done].
    simpl. by rewrite bool_decide_false, Hno.
Qed.

Lemma cut_None sep s : cut sep s = None → has_byte sep s = false.
Proof.
  induction s as [|c s IH]; [done|]. simpl.
  destruct (decide (c = sep)) as [->|Hc]; [done|].
  destruct (cut sep s) as [[a' b']|]; [done|]. intros _.
  by rewrite bool_decide_false, IH.
Qed.

(** The first two pieces of a three-way split hold no separator. *)
Lemma SplitN_3_segments s seg0 rest :
  SplitN s "/" 3 = seg0 :: rest →
  has_byte "/" seg0 = false
  ∧ ∀ seg1 more, rest = seg1 :: more → has_byte "/" seg1 = false.
Proof.
  unfold SplitN. simpl.
  destruct (cut "/" s) as [[a b]|] eqn:Hcut.
  - apply cut_Some in Hcut as [Ha _].
    destruct (cut "/" b) as [[a' b']|] eqn:Hcut'.
    + apply cut_Some in Hcut' as [Ha' _]. intros [= <- <-].
      split; [done|]. by intros ?? [= <- <-].
    + apply cut_None in Hcut'. intros [= <- <-].
      split; [done|]. by intros ?? [= <- <-].
  - apply cut_None in Hcut. intros [= <- <-]. split; [done|]. by intros ?? [=].
Qed.

Lemma TrimSuffix_no_new_byte c s suffix :
  has_byte c s = false → has_byte c (TrimSuffix s suffix) = false.
Proof.
  intros Hno.
  destruct (TrimSuffix_spec s suffix) as [(t & -> & ->)|[_ ->]]; [|done].
  rewrite has_byte_app in Hno. by apply orb_false_elim in Hno as [? _].
Qed.

(** What a successful parse returns, in terms of the path segments. *)
Lemma Roots_parse_ok_shape uri host owner repo :
  Roots.ParseGitHubRootURI uri host = Ok (owner, repo) →
  ∃ seg0, seg0 ≠ "" ∧ has_byte "/" seg0 = false ∧ owner = ToLower seg0
          ∧ (repo = ""
             ∨ ∃ seg1, seg1 ≠ "" ∧ has_byte "/" seg1 = false
                       ∧ repo = ToLower (TrimSuffix seg1 ".git")).
Proof.
  unfold Roots.ParseGitHubRootURI.
  destruct (url_Parse uri) as [u|]; [|done].
  destruct (supported_scheme (Scheme u)); [|done].
  destruct (EqualFold (Host u) (default_host host)); [|done]. simpl.
  case_decide; [done|].
  destruct (SplitN _ "/" 3) as [|seg0 rest] eqn:Hsplit; [done|].
  apply SplitN_3_segments in Hsplit as [Hseg0 Hseg1].
  case_decide; [done|]. intros [= <- <-].
  exists seg0. split_and!; [done..|].
  destruct rest as [|seg1 more]; [by left|].
  case_decide; [by left|]. right. exists seg1. split_and!; [done| |done].
  by apply (Hseg1 seg1 more).
Qed.

(** Every resolved root comes from an entry the parser accepts. *)
Lemma resolved_root_origin roots host r :
  r ∈ ParseGitHubRoots roots host →
  ∃ root, Some root ∈ roots
          ∧ ParseGitHubRootURI (root_URI root) host = Ok (Owner r, Repo r).
Proof.
  induction roots as [|[root|] roots IH]; simpl.
  - by intros ?%elem_of_nil.
  - destruct (ParseGitHubRootURI (root_URI root) host)
      as [[owner repo]|e] eqn:Hparse.
    + intros [->|Hr]%elem_of_cons.
      * exists root. split; [apply list_elem_of_here|done].
      * destruct (IH Hr) as (root' & Hin & Hp). exists root'.
        split; [by apply list_elem_of_further|done].
    + intros Hr. destruct (IH Hr) as (root' & Hin & Hp). exists root'.
      split; [by apply list_elem_of_further|done].
  - intros Hr. destruct (IH Hr) as (root' & Hin & Hp). exists root'.
    split; [by apply list_elem_of_further|done].
Qed.

(** Resolving a concatenation. *)
Lemma resolved_app roots1 roots2 host :
  ParseGitHubRoots (roots1 ++ roots2)%list host
  = (ParseGitHubRoots roots1 host ++ ParseGitHubRoots roots2 host)%list.
Proof.
  induction roots1 as [|[root|] roots1 IH]; simpl; [done| |done].
  destruct (ParseGitHubRootURI (root_URI root) host) as [[owner repo]|e];
    simpl; by rewrite ?IH.
Qed.

(** With a lowercasing that is idempotent and keeps non-empty strings
    non-empty, resolved roots are fixed points of it. *)
Lemma resolved_root_lowercase roots host r :
  (∀ s, ToLower (ToLower s) = ToLower s) →
  (∀ s, ToLower s = "" → s = "") →
  r ∈ ParseGitHubRoots roots host →
  Owner r ≠ "" ∧ ToLower (Owner r) = Owner r ∧ ToLower (Repo r) = Repo r.
Proof.
  intros Hidem Hne Hr.
  apply resolved_root_origin in Hr as (root & _ & Hparse).
  apply Roots_parse_ok_shape in Hparse
    as (seg0 & Hseg0 & _ & -> & [->|(seg1 & _ & _ & ->)]).
  - split_and!; [by intros ?%Hne|done|]. by rewrite ToLower_empty.
  - split_and!; [by intros ?%Hne|done..].
Qed.

End resolver_facts.

(** X1. A root is among the resolved roots exactly when some non-nil
    entry of the client's list parses to its owner and repo and carries
    its URI and name: nil entries and entries the parser rejects
    contribute nothing, and nothing else is ever added. *)
Theorem ParseGitHubRoots_elem `{GoLib}
    (roots : list (option Roots.mcpRoot)) (host : string) (r : Roots.Root) :
  r ∈ Roots.ParseGitHubRoots roots host
  ↔ ∃ root, Some root ∈ roots
            ∧ Roots.ParseGitHubRootURI (Roots.root_URI root) host
              = Ok (Roots.Owner r, Roots.Repo r)
            ∧ Roots.URI r = Roots.root_URI root
            ∧ Roots.Name r = Roots.root_Name root.
Proof.
  induction roots as [|[root|] roots IH]; simpl.
  - split; [by intros ?%elem_of_nil|]. by intros (? & ?%elem_of_nil & _).
  - destruct (Roots.ParseGitHubRootURI (Roots.root_URI root) host)
      as [[owner repo]|e] eqn:Hparse.
    + rewrite elem_of_cons, IH. split.
      * intros [->|(root' & Hin & Hrest)].
        -- exists root. split; [apply list_elem_of_here|by rewrite Hparse].
        -- exists root'. split; [by apply list_elem_of_further|done].
      * intros (root' & Hin & Hp & Huri & Hname).
        apply elem_of_cons in Hin as [[= <-]|Hin].
        -- left. destruct r. simpl in *. rewrite Hparse in Hp. by simplify_eq.
        -- right. by exists root'.
    + rewrite IH. split.
      * intros (root' & Hin & Hrest). exists root'.
        split; [by apply list_elem_of_further|done].
      * intros (root' & Hin & Hp & Hrest).
        apply elem_of_cons in Hin as [[= <-]|Hin]; [congruence|].
        by exists root'.
  - rewrite IH. split.
    + intros (root' & Hin & Hrest). exists root'.
      split; [by apply list_elem_of_further|done].
    + intros (root' & Hin & Hrest).
      apply elem_of_cons in Hin as [[=]|Hin]. by exists root'.
Qed.

(** X2. Resolving is entry by entry and keeps the order: the roots
    resolved from a concatenation of two lists are those of the first
    followed by those of the second, and there are never more resolved
    roots than entries. *)
Theorem ParseGitHubRoots_app `{GoLib}
    (roots1 roots2 : list (option Roots.mcpRoot)) (host : string) :
  Roots.ParseGitHubRoots (roots1 ++ roots2)%list host
  = (Roots.ParseGitHubRoots roots1 host
     ++ Roots.ParseGitHubRoots roots2 host)%list
  ∧ (length (Roots.ParseGitHubRoots roots1 host) ≤ length roots1)%nat.
Proof.
  induction roots1 as [|[root|] roots1 [IHapp IHlen]]; simpl.
  - split; [done|lia].
  - destruct (Roots.ParseGitHubRootURI (Roots.root_URI root) host)
      as [[owner repo]|e]; simpl; rewrite ?IHapp; split; try done; lia.
  - split; [done|lia].
Qed.

(** X3. Resolved roots are normalized.  When lowercasing is idempotent
    and maps only the empty string to the empty string (as Go's
    [strings.ToLower] does), every resolved root has a non-empty owner,
    and its owner and repo are left unchanged by lowercasing, which is
    what the comparisons of the middlewares rely on. *)
Theorem resolved_roots_normalized `{GoLib}
    (roots : list (option Roots.mcpRoot)) (host : string) (r : Roots.Root) :
  (∀ s, ToLower (ToLower s) = ToLower s) →
  (∀ s, ToLower s = "" → s = "") →
  r ∈ Roots.ParseGitHubRoots roots host →
  Roots.Owner r ≠ ""
  ∧ ToLower (Roots.Owner r) = Roots.Owner r
  ∧ ToLower (Roots.Repo r) = Roots.Repo r.
Proof.
  intros Hidem Hne Hr.
  apply resolved_root_origin in Hr as (root & _ & Hparse).
  apply Roots_parse_ok_shape in Hparse
    as (seg0 & Hseg0 & _ & -> & [->|(seg1 & _ & _ & ->)]).
  - split_and!; [by intros ?%Hne|done|]. by rewrite ToLower_empty.
  - split_and!; [by intros ?%Hne|done..].
Qed.

Lemma resolved_roots_normalized_witness :
  GoAscii.ToLower "octocat" = "octocat"
  ∧ GoAscii.ToLower "hello-world" = "hello-world".
Proof.
  pose proof (@resolved_roots_normalized GoAscii.go
    [Some (Roots.mkMcpRoot "https://github.com/OctoCat/Hello-World" "")]
    "github.com"
    (Roots.mkRoot "octocat" "hello-world"
       "https://github.com/OctoCat/Hello-World" "")
    ascii_ToLower_idem ascii_ToLower_nonempty (list_elem_of_here _ _))
    as (_ & Howner & Hrepo).
  split; [exact Howner|exact Hrepo].
Defined.

(** X4. What the repository-only variant of the parser returns on
    success is a pair of single path segments: owner and repo are both
    non-empty and neither contains a slash. *)
Theorem RepoRoots_parse_segments `{GoLib} (uri host owner repo : string) :
  RepoRoots.ParseGitHubRootURI uri host = Ok (owner, repo) →
  owner ≠ "" ∧ repo ≠ ""
  ∧ has_byte "/" owner = false ∧ has_byte "/" repo = false.
Proof.
  unfold RepoRoots.ParseGitHubRootURI.
  destruct (url_Parse uri) as [u|]; [|done].
  destruct (supported_scheme (Scheme u)); [|done].
  destruct (EqualFold (Host u) (default_host host)); [|done]. simpl.
  case_decide; [done|].
  destruct (SplitN _ "/" 3) as [|seg0 [|seg1 more]] eqn:Hsplit; [done..|].
  apply SplitN_3_segments in Hsplit as [Hseg0 Hseg1].
  repeat (case_decide; [done|]). intros [= <- <-].
  split_and!; [done..|]. apply TrimSuffix_no_new_byte. by apply (Hseg1 seg1 more).
Qed.

Lemma RepoRoots_parse_segments_witness :
  "octocat" ≠ "" ∧ "Hello-World" ≠ "".
Proof.
  pose proof (@RepoRoots_parse_segments GoAscii.go
    "https://github.com/octocat/Hello-World.git" "github.com"
    "octocat" "Hello-World" eq_refl) as (Howner & Hrepo & _).
  split; [exact Howner|exact Hrepo].
Defined.

Section variants_pointwise.
Context `{GoLib}.

(** The two parsers, input by input. *)
Lemma variants_pointwise uri host :
  match RepoRoots.ParseGitHubRootURI uri host with
  | Ok (owner, repo) =>
      repo ≠ ""
      ∧ Roots.ParseGitHubRootURI uri host = Ok (ToLower owner, ToLower repo)
  | Err _ =>
      match Roots.ParseGitHubRootURI uri host with
      | Ok (_, repo) => repo = ""
      | Err _ => True
      end
  end.
Proof.
  unfold RepoRoots.ParseGitHubRootURI, Roots.ParseGitHubRootURI.
  destruct (url_Parse uri) as [u|]; [|done].
  destruct (supported_scheme (Scheme u)); [|done].
  destruct (EqualFold (Host u) (default_host host)); [|done]. simpl.
  destruct (decide (TrimSuffix (TrimPrefix (Path u) "/") "/" = "")); [done|].
  destruct (SplitN _ _ _) as [|seg0 [|seg1 more]];
    [done|by destruct (decide (seg0 = ""))|].
  destruct (decide (seg0 = "")); [done|].
  destruct (decide (seg1 = "")); [done|].
  destruct (decide (TrimSuffix seg1 ".git" = "")) as [Hgit|]; [|done].
  rewrite Hgit. apply ToLower_empty.
Qed.

End variants_pointwise.

(** X5. The two resolvers agree on repository-level roots.  When
    lowercasing maps only the empty string to the empty string, the
    repository-level roots (non-empty repo) resolved by the normalizing
    variant are, in order, the roots resolved by the repository-only
    variant with owner and repo lowercased, URI and name being the
    same. *)
Theorem resolvers_agree_on_repo_roots `{GoLib}
    (roots : list (option Roots.mcpRoot)) (host : string) :
  (∀ s, ToLower s = "" → s = "") →
  (λ r, (Roots.Owner r, Roots.Repo r, Roots.URI r, Roots.Name r))
    <$> Middleware.repo_level_roots (Roots.ParseGitHubRoots roots host)
  = (λ g, (ToLower (RepoRoots.Owner g), ToLower (RepoRoots.Repo g),
           RepoRoots.URI g, RepoRoots.Name g))
      <$> RepoRoots.ParseGitHubRoots roots host.
Proof.
  intros Hne. unfold Middleware.repo_level_roots.
  induction roots as [|[root|] roots IH]; simpl; [done| |done].
  pose proof (variants_pointwise (Roots.root_URI root) host) as Hpoint.
  destruct (RepoRoots.ParseGitHubRootURI (Roots.root_URI root) host)
    as [[owner repo]|e].
  - destruct Hpoint as [Hrepo ->].
    rewrite filter_cons_True by (simpl; by intros ?%Hne).
    rewrite !fmap_cons, IH. done.
  - destruct (Roots.ParseGitHubRootURI (Roots.root_URI root) host)
      as [[owner repo]|e']; [|done].
    subst repo. rewrite filter_cons_False by (simpl; by intros []). done.
Qed.

Lemma resolvers_agree_on_repo_roots_witness :
  (λ r, (Roots.Owner r, Roots.Repo r, Roots.URI r, Roots.Name r))
    <$> Middleware.repo_level_roots
          (@Roots.ParseGitHubRoots GoAscii.go
             [Some (Roots.mkMcpRoot "https://github.com/myorg" "My Org");
              Some (Roots.mkMcpRoot "https://github.com/OctoCat/Hello-World" "")]
             "github.com")
  = [("octocat", "hello-world", "https://github.com/OctoCat/Hello-World", "")].
Proof.
  exact (@resolvers_agree_on_repo_roots GoAscii.go
    [Some (Roots.mkMcpRoot "https://github.com/myorg" "My Org");
     Some (Roots.mkMcpRoot "https://github.com/OctoCat/Hello-World" "")]
    "github.com" ascii_ToLower_nonempty).
Defined.

Section trailing_slash.
Context `{GoLib}.

Lemma trimmed_path_trailing_slash p :
  (∀ t, p ≠ t +:+ "/") →
  TrimSuffix (TrimPrefix (p +:+ "/") "/") "/"
  = TrimSuffix (TrimPrefix p "/") "/".
Proof.
  intros Hno. destruct p as [|c p]; [done|].
  assert (∃ y, TrimPrefix (String c p) "/" = y
               ∧ TrimPrefix (String c p +:+ "/") "/" = y +:+ "/"
               ∧ ∀ t, y ≠ t +:+ "/") as (y & -> & -> & Hy).
  { unfold TrimPrefix. rewrite app_cons. simpl.
    destruct (decide ("/"%char = c)) as [<-|Hc]; simpl.
    - exists p. split_and!; [done..|]. intros t ->.
      by apply (Hno (String "/" t)).
    - exists (String c p). by split_and!. }
  by rewrite TrimSuffix_app, TrimSuffix_not_suffix.
Qed.

Lemma not_a_suffix s suffix :
  suffix ≠ "" → TrimSuffix s suffix = s → ∀ t, s ≠ t +:+ suffix.
Proof.
  intros Hne Hid t ->. rewrite TrimSuffix_app in Hid.
  apply (f_equal String.length) in Hid. rewrite app_length in Hid.
  destruct suffix; [done|]. simpl in Hid. lia.
Qed.

End trailing_slash.

(** X6. One trailing slash on the path does not change what either
    variant of the parser returns: two URIs that parse to the same scheme
    and host, the path of one being the path of the other followed by a
    slash, give the same result. *)
Theorem parse_ignores_trailing_slash `{GoLib} (uri uri' host : string) (u u' : URL) :
  url_Parse uri = Some u → url_Parse uri' = Some u' →
  Scheme u' = Scheme u → Host u' = Host u →
  Path u' = Path u +:+ "/" →
  (∀ t, Path u ≠ t +:+ "/") →
  Roots.ParseGitHubRootURI uri' host = Roots.ParseGitHubRootURI uri host
  ∧ RepoRoots.ParseGitHubRootURI uri' host
    = RepoRoots.ParseGitHubRootURI uri host.
Proof.
  intros Hu Hu' Hs Hh HP Hno.
  unfold Roots.ParseGitHubRootURI, RepoRoots.ParseGitHubRootURI.
  by rewrite Hu, Hu', Hs, Hh, HP, trimmed_path_trailing_slash.
Qed.

Lemma parse_ignores_trailing_slash_witness :
  @Roots.ParseGitHubRootURI GoAscii.go
    "https://github.com/octocat/Hello-World/" "github.com"
  = @Roots.ParseGitHubRootURI GoAscii.go
      "https://github.com/octocat/Hello-World" "github.com".
Proof.
  refine (proj1 (@parse_ignores_trailing_slash GoAscii.go
    "https://github.com/octocat/Hello-World"
    "https://github.com/octocat/Hello-World/" "github.com"
    (mkURL "https" "github.com" "/octocat/Hello-World")
    (mkURL "https" "github.com" "/octocat/Hello-World/")
    eq_refl eq_refl eq_refl eq_refl eq_refl _)).
  apply not_a_suffix; [discriminate|reflexivity].
Defined.

(** ** More on the injection middleware *)

Section injection_more.
Context `{GoLib}.
Import Roots Middleware.

(** A second run of the two assignments assigns nothing. *)
Lemma inject_defaults_again commonOwner repoRoots args :
  inject_defaults commonOwner repoRoots
    (inject_defaults commonOwner repoRoots args).1
  = ((inject_defaults commonOwner repoRoots args).1, false).
Proof.
  pose proof (inject_defaults_lookup commonOwner repoRoots args)
    as (Howner & Hrepo & _). simpl in Howner, Hrepo.
  remember (inject_defaults commonOwner repoRoots args).1 as args1.
  unfold inject_defaults. rewrite Howner.
  destruct repoRoots as [|only [|]]; try done.
  rewrite Hrepo. by destruct (args !! "repo").
Qed.

(** A set flag means a member was added that was not there. *)
Lemma inject_defaults_modified commonOwner repoRoots args args' :
  inject_defaults commonOwner repoRoots args = (args', true) → args' ≠ args.
Proof.
  unfold inject_defaults.
  destruct (args !! "owner") as [ownerRaw|] eqn:Howner;
    destruct repoRoots as [|only [|]]; simpl;
    try (destruct (_ !! "repo") as [repoRaw|] eqn:Hrepo);
    intros [= <-]; intros Heq.
  - rewrite <- Heq, lookup_insert_eq in Hrepo. done.
  - rewrite <- Heq, lookup_insert_eq in Howner. done.
  - rewrite <- Heq, lookup_insert_eq in Howner. done.
  - rewrite <- Heq in Howner.
    rewrite lookup_insert_ne, lookup_insert_eq in Howner; done.
  - rewrite <- Heq, lookup_insert_eq in Howner. done.
Qed.

(** The two ways the injection middleware ends: it forwards the request
    it received and logs nothing above Debug level, or it forwards the
    request with re-encoded arguments and logs one Info record. *)
Lemma injection_cases host method request :
  (action (RootsMiddleware host method request) = CallNext method request
   ∧ ∀ l, l ∈ logged (RootsMiddleware host method request) →
          log_level l = LevelDebug)
  ∨ ∃ callReq session first others args args',
      method = "tools/call" ∧ request = CallToolReq callReq
      ∧ Session callReq = Some session
      ∧ resolved_roots host session = Some (first :: others)
      ∧ all_same_owner (Owner first) others = true
      ∧ decoded_args (Arguments (Params callReq)) = Some args
      ∧ inject_defaults (Owner first) (repo_level_roots (first :: others)) args
        = (args', true)
      ∧ RootsMiddleware host method request
        = mkStep
            [mkLog LevelInfo "roots middleware: injected defaults from roots"
               (app [("tool", Mcp.Name (Params callReq));
                     ("owner", Owner first)]
                    match repo_level_roots (first :: others) with
                    | [only] => [("repo", Repo only)]
                    | _ => []
                    end)]
            (CallNext method
               (CallToolReq
                  (with_arguments callReq (RawJSON (JObject args'))))).
Proof.
  unfold RootsMiddleware.
  destruct (decide (method ≠ "tools/call")) as [|Hm];
    [left; split; [done|by intros ? ?%elem_of_nil]|].
  apply dec_stable in Hm.
  destruct request as [callReq|];
    [|left; split; [done|by intros ? ?%elem_of_nil]].
  destruct (Session callReq) as [session|] eqn:Hsess;
    [|left; split; [done|by intros ? ?%elem_of_nil]].
  destruct (resolved_roots host session) as [[|first others]|] eqn:Hroots.
  - left; split; [done|by intros ? ?%elem_of_nil].
  - destruct (all_same_owner (Owner first) others) eqn:Hsame; simpl;
      [|left; split; [done|by intros ? ?%elem_of_nil]].
    assert (decoded_args (Arguments (Params callReq)) = None
            ∧ (if raw_len_is_zero (Arguments (Params callReq))
               then Some None
               else json_Unmarshal (Arguments (Params callReq))) = None
            ∨ ∃ args,
                decoded_args (Arguments (Params callReq)) = Some args
                ∧ default ∅ <$>
                    (if raw_len_is_zero (Arguments (Params callReq))
                     then Some None
                     else json_Unmarshal (Arguments (Params callReq)))
                  = Some args) as [[_ ->]|(args & Hargs & Hdec)].
    { unfold decoded_args.
      destruct (Arguments (Params callReq)) as [| |[]]; simpl; eauto. }
    { left; split; [done|by intros ? ?%elem_of_nil]. }
    destruct (if raw_len_is_zero (Arguments (Params callReq))
              then Some None
              else json_Unmarshal (Arguments (Params callReq)))
      as [unmarshalled|]; [|done].
    simpl in Hdec. injection Hdec as Hdec. rewrite Hdec.
    destruct (inject_defaults (Owner first)
                (repo_level_roots (first :: others)) args)
      as [args' [|]] eqn:Hinject; simpl.
    + right. exists callReq, session, first, others, args, args'.
      by split_and!.
    + left; split; [done|by intros ? ?%elem_of_nil].
  - left. split; [done|]. simpl. unfold list_roots_failure.
    destruct (ListRoots session); intros l Hl;
      [|by apply elem_of_nil in Hl..].
    by apply list_elem_of_singleton in Hl as ->.
Qed.

End injection_more.

(** X7. Injection is idempotent: the request the injection middleware
    forwards is forwarded unchanged when the middleware runs on it
    again; values filled in once are treated as explicit the next
    time. *)
Theorem injection_idempotent `{GoLib}
    (host method : string) (request request' : Request) :
  action (Middleware.RootsMiddleware host method request)
  = CallNext method request' →
  action (Middleware.RootsMiddleware host method request')
  = CallNext method request'.
Proof.
  intros Hfirst.
  destruct (injection_cases host method request)
    as [[Hsame _]|(callReq & session & first & others & args & args' & -> & ->
                   & Hsess & Hroots & Hall & Hargs & Hinject & Hstep)].
  - rewrite Hsame in Hfirst. by simplify_eq.
  - rewrite Hstep in Hfirst. simpl in Hfirst. simplify_eq.
    rewrite (injection_decision host _ session first others args'); try done.
    pose proof (inject_defaults_again (Roots.Owner first)
                  (Middleware.repo_level_roots (first :: others)) args)
      as Hagain.
    rewrite Hinject in Hagain. simpl in Hagain. by rewrite Hagain.
Qed.

Lemma injection_idempotent_witness :
  action (@Middleware.RootsMiddleware GoAscii.go "github.com" "tools/call"
            (Scenario.call ["https://github.com/myorg/main-app"]
               (<["owner" := JString "myorg"]>
                  (<["repo" := JString "main-app"]>
                     {["state" := JString "open"]}))))
  = CallNext "tools/call"
      (Scenario.call ["https://github.com/myorg/main-app"]
         (<["owner" := JString "myorg"]>
            (<["repo" := JString "main-app"]>
               {["state" := JString "open"]}))).
Proof.
  exact (@injection_idempotent GoAscii.go "github.com" "tools/call"
    (Scenario.call ["https://github.com/myorg/main-app"]
       {["state" := JString "open"]})
    (Scenario.call ["https://github.com/myorg/main-app"]
       (<["owner" := JString "myorg"]>
          (<["repo" := JString "main-app"]> {["state" := JString "open"]})))
    eq_refl).
Defined.

(** X8. The injection middleware never changes a call silently: either
    it forwards the request it received and logs nothing above Debug
    level, or it forwards a different request and logs exactly one Info
    record, which names the tool and the common owner of the roots. *)
Theorem injection_leaves_a_trace `{GoLib}
    (host method : string) (request : Request) :
  (action (Middleware.RootsMiddleware host method request)
   = CallNext method request
   ∧ ∀ l, l ∈ logged (Middleware.RootsMiddleware host method request) →
          log_level l = LevelDebug)
  ∨ ∃ callReq callReq' first attrs,
      request = CallToolReq callReq
      ∧ action (Middleware.RootsMiddleware host method request)
        = CallNext method (CallToolReq callReq')
      ∧ callReq' ≠ callReq
      ∧ (∃ session others,
           Session callReq = Some session
           ∧ Middleware.resolved_roots host session = Some (first :: others))
      ∧ logged (Middleware.RootsMiddleware host method request)
        = [mkLog LevelInfo "roots middleware: injected defaults from roots"
             (("tool", Mcp.Name (Params callReq))
              :: ("owner", Roots.Owner first) :: attrs)].
Proof.
  destruct (injection_cases host method request)
    as [?|(callReq & session & first & others & args & args' & -> & ->
           & Hsess & Hroots & Hall & Hargs & Hinject & Hstep)]; [by left|].
  right. rewrite Hstep. simpl.
  exists callReq,
    (Middleware.with_arguments callReq (RawJSON (JObject args'))), first,
    (match Middleware.repo_level_roots (first :: others) with
     | [only] => [("repo", Roots.Repo only)]
     | _ => []
     end).
  split_and!; [done|done| |by eauto|done].
  intros Heq. apply inject_defaults_modified in Hinject.
  rewrite <- Heq in Hargs. unfold decoded_args in Hargs. simpl in Hargs.
  by simplify_eq.
Qed.

(** ** More on the enforcement middleware *)

Section enforcement_more.
Context `{GoLib}.
Import Roots Middleware.
Implicit Types S : list Root.

(** The steps of the enforcement middleware: a pass-through that logs
    nothing above Debug level, or a denial that logs its message. *)
Lemma enforcement_cases host method request :
  (action (RootsEnforcementMiddleware host method request)
   = CallNext method request
   ∧ ∀ l, l ∈ logged (RootsEnforcementMiddleware host method request) →
          log_level l = LevelDebug)
  ∨ ∃ callReq msg attrs,
      request = CallToolReq callReq
      ∧ RootsEnforcementMiddleware host method request
        = mkStep [mkLog LevelInfo msg (("tool", Mcp.Name (Params callReq)) :: attrs)]
                 (Return (NewToolResultError msg) None).
Proof.
  unfold RootsEnforcementMiddleware, deny, pass.
  destruct (decide (method ≠ "tools/call"));
    [left; split; [done|by intros ? ?%elem_of_nil]|].
  destruct request as [callReq|];
    [|left; split; [done|by intros ? ?%elem_of_nil]].
  destruct (Session callReq) as [session|];
    [|left; split; [done|by intros ? ?%elem_of_nil]].
  destruct (resolved_roots host session) as [S|].
  - repeat case_match; simpl;
      first [ left; split; [done|by intros ? ?%elem_of_nil]
            | right; by eexists callReq, _, _ ].
  - left. split; [done|]. simpl. unfold list_roots_failure.
    destruct (ListRoots session); intros l Hl;
      [|by apply elem_of_nil in Hl..].
    by apply list_elem_of_singleton in Hl as ->.
Qed.

(** The decision as a boolean, for a checked call. *)
Lemma enforcement_calls_next host callReq session S args owner :
  Session callReq = Some session →
  resolved_roots host session = Some S →
  Arguments (Params callReq) = RawJSON (JObject args) →
  args !! "owner" = Some (JString owner) → owner ≠ "" →
  calls_next (RootsEnforcementMiddleware host "tools/call" (CallToolReq callReq))
  = existsb (λ r, bool_decide (Owner r = ToLower owner)) S
    && match checked_repo args with
       | None => true
       | Some repo =>
           existsb (λ r, bool_decide (Owner r = ToLower owner)
                         && bool_decide (Repo r = "")) S
           || repo_allowed (ToLower owner) (ToLower repo) S
       end.
Proof.
  intros Hsess Hroots Hargs Howner Hne.
  rewrite (enforcement_decision host callReq session S args owner) by done.
  destruct (existsb (λ r, bool_decide (Owner r = ToLower owner)) S);
    [|done]. simpl.
  destruct (checked_repo args) as [repo|]; [|done].
  by destruct (_ || _).
Qed.

(** A call that is not a checked one is forwarded. *)
Lemma enforcement_unchecked host method request :
  (∀ callReq session S args owner,
     method = "tools/call" → request = CallToolReq callReq →
     Session callReq = Some session →
     resolved_roots host session = Some S →
     Arguments (Params callReq) = RawJSON (JObject args) →
     args !! "owner" = Some (JString owner) → owner ≠ "" → False) →
  calls_next (RootsEnforcementMiddleware host method request) = true.
Proof.
  intros Hunchecked. unfold calls_next.
  destruct (action _) as [|result err] eqn:Hact; [done|].
  destruct (enforcement_return_inv _ _ _ _ _ Hact)
    as (callReq & session & S & args & O & ? & ? & ? & ? & ? & ? & ?).
  destruct (Hunchecked callReq session S args O); done.
Qed.

End enforcement_more.

(** X9. What the injection fills in passes the enforcement.  When
    lowercasing is idempotent and maps only the empty string to the
    empty string, a call without owner and repo, on a session whose
    resolved roots share one owner, leaves the injection middleware as a
    request that the enforcement middleware, reading the same roots,
    hands to the handler unchanged. *)
Theorem injected_defaults_pass_enforcement `{GoLib}
    (host : string) (callReq : CallToolRequest) (session : ServerSession)
    (S : list Roots.Root) (common : string) (args : gmap string JValue) :
  (∀ s, ToLower (ToLower s) = ToLower s) →
  (∀ s, ToLower s = "" → s = "") →
  Session callReq = Some session →
  Middleware.resolved_roots host session = Some S →
  (∀ r, r ∈ S → Roots.Owner r = common) →
  decoded_args (Arguments (Params callReq)) = Some args →
  args !! "owner" = None → args !! "repo" = None →
  ∃ callReq',
    action (Middleware.RootsMiddleware host "tools/call" (CallToolReq callReq))
    = CallNext "tools/call" (CallToolReq callReq')
    ∧ request_args (CallToolReq callReq')
      = Some (Middleware.inject_defaults common
                (Middleware.repo_level_roots S) args).1
    ∧ action (Middleware.RootsEnforcementMiddleware host "tools/call"
                (CallToolReq callReq'))
      = CallNext "tools/call" (CallToolReq callReq').
Proof.
  intros Hidem Hne Hsess Hroots Hcommon Hargs Howner Hrepo.
  destruct (resolved_roots_Some _ _ _ Hroots) as [Hnonempty (roots & _ & HS)].
  destruct S as [|first others]; [done|].
  assert (Roots.Owner first = common) as Hfirst
    by apply Hcommon, list_elem_of_here.
  assert (Middleware.all_same_owner (Roots.Owner first) others = true)
    as Hsame.
  { apply all_same_owner_iff. intros r Hr. rewrite Hfirst.
    by apply Hcommon, list_elem_of_further. }
  rewrite (injection_decision host callReq session first others args) by done.
  rewrite Hfirst.
  set (S := first :: others) in *.
  assert (∀ r, r ∈ S →
            ToLower (Roots.Owner r) = Roots.Owner r
            ∧ ToLower (Roots.Repo r) = Roots.Repo r) as Hnormal.
  { intros r Hr. rewrite HS in Hr.
    by destruct (resolved_root_lowercase roots host r Hidem Hne Hr) as (_ & ? & ?). }
  assert (common ≠ "") as Hcommon_ne.
  { rewrite <- Hfirst. assert (first ∈ S) as Hin by apply list_elem_of_here.
    rewrite HS in Hin.
    by destruct (resolved_root_lowercase roots host first Hidem Hne Hin). }
  assert (existsb (λ r, bool_decide (Roots.Owner r = ToLower common)) S = true)
    as Hallowed.
  { apply owner_allowed_iff. exists first. split; [apply list_elem_of_here|].
    rewrite <- Hfirst. symmetry. apply Hnormal, list_elem_of_here. }
  unfold Middleware.inject_defaults. rewrite Howner.
  rewrite (lookup_insert_ne args "owner" "repo") by done. rewrite Hrepo.
  assert (∀ args' : gmap string JValue,
            args' !! "owner" = Some (JString common) →
            match Middleware.checked_repo args' with
            | None => True
            | Some repo =>
                Middleware.repo_allowed (ToLower common) (ToLower repo) S = true
            end →
            action (Middleware.RootsEnforcementMiddleware host "tools/call"
                      (CallToolReq (Middleware.with_arguments callReq
                                      (RawJSON (JObject args')))))
            = CallNext "tools/call"
                (CallToolReq (Middleware.with_arguments callReq
                                (RawJSON (JObject args'))))) as Hgo.
  { intros args' Howner' Hrepo'.
    pose proof (enforcement_calls_next host
                  (Middleware.with_arguments callReq (RawJSON (JObject args')))
                  session S args' common Hsess Hroots eq_refl Howner' Hcommon_ne)
      as Hnext.
    rewrite Hallowed, andb_true_l in Hnext.
    assert (calls_next
              (Middleware.RootsEnforcementMiddleware host "tools/call"
                 (CallToolReq (Middleware.with_arguments callReq
                                 (RawJSON (JObject args'))))) = true) as Hyes.
    { rewrite Hnext. revert Hrepo'.
      destruct (Middleware.checked_repo args'); [|done].
      intros ->. apply orb_true_r. }
    unfold calls_next in Hyes.
    destruct (enforcement_action_cases host "tools/call"
                (CallToolReq (Middleware.with_arguments callReq
                                (RawJSON (JObject args')))))
      as [Hfw|[msg Hdeny]]; [done|].
    by rewrite Hdeny in Hyes. }
  destruct (Middleware.repo_level_roots S) as [|only [|]] eqn:Hrepos.
  - eexists. split_and!; [done|done|].
    apply Hgo; [apply lookup_insert_eq|].
    unfold Middleware.checked_repo.
    by rewrite (lookup_insert_ne args "owner" "repo"), Hrepo.
  - assert (Roots.Repo only ≠ "" ∧ only ∈ S) as [Honly Hin].
    { apply (list_elem_of_filter (λ r, Roots.Repo r ≠ "")).
      unfold Middleware.repo_level_roots in Hrepos. rewrite Hrepos.
      apply list_elem_of_here. }
    eexists. split_and!; [done|done|].
    apply Hgo.
    + rewrite lookup_insert_ne by done. apply lookup_insert_eq.
    + unfold Middleware.checked_repo. rewrite lookup_insert_eq.
      rewrite decide_False by done.
      apply repo_allowed_iff. exists only. split_and!; [done| |].
      * rewrite (Hcommon only Hin), <- (Hcommon only Hin). symmetry.
        by apply Hnormal.
      * symmetry. by apply Hnormal.
  - eexists. split_and!; [done|done|].
    apply Hgo; [apply lookup_insert_eq|].
    unfold Middleware.checked_repo.
    by rewrite (lookup_insert_ne args "owner" "repo"), Hrepo.
Qed.

Lemma injected_defaults_pass_enforcement_witness :
  ∃ callReq',
    action (@Middleware.RootsMiddleware GoAscii.go "github.com" "tools/call"
              (Scenario.call ["https://github.com/MyOrg/Main-App"]
                 {["state" := JString "open"]}))
    = CallNext "tools/call" (CallToolReq callReq')
    ∧ request_args (CallToolReq callReq')
      = Some (<["owner" := JString "myorg"]>
                (<["repo" := JString "main-app"]>
                   {["state" := JString "open"]}))
    ∧ action (@Middleware.RootsEnforcementMiddleware GoAscii.go "github.com"
                "tools/call" (CallToolReq callReq'))
      = CallNext "tools/call" (CallToolReq callReq').
Proof.
  refine (@injected_defaults_pass_enforcement GoAscii.go "github.com"
    (mkCallToolRequest
       (Some (Scenario.session_of ["https://github.com/MyOrg/Main-App"]))
       (mkParams "echo_args" (RawJSON (JObject {["state" := JString "open"]}))))
    (Scenario.session_of ["https://github.com/MyOrg/Main-App"])
    [Roots.mkRoot "myorg" "main-app" "https://github.com/MyOrg/Main-App" ""]
    "myorg" {["state" := JString "open"]}
    ascii_ToLower_idem ascii_ToLower_nonempty eq_refl eq_refl _
    eq_refl eq_refl eq_refl).
  intros r Hr. apply list_elem_of_singleton in Hr. by rewrite Hr.
Defined.

(** X10. The enforcement decision does not depend on the case of the
    arguments: two calls on the same session whose non-empty owners have
    the same lowercase form, and whose checked repos (if any) have the
    same lowercase form, are both forwarded or both denied. *)
Theorem enforcement_ignores_case `{GoLib}
    (host : string) (session : ServerSession)
    (callReq1 callReq2 : CallToolRequest)
    (args1 args2 : gmap string JValue) (O1 O2 : string) :
  Session callReq1 = Some session → Session callReq2 = Some session →
  Arguments (Params callReq1) = RawJSON (JObject args1) →
  Arguments (Params callReq2) = RawJSON (JObject args2) →
  args1 !! "owner" = Some (JString O1) → O1 ≠ "" →
  args2 !! "owner" = Some (JString O2) → O2 ≠ "" →
  ToLower O1 = ToLower O2 →
  ToLower <$> Middleware.checked_repo args1
  = ToLower <$> Middleware.checked_repo args2 →
  calls_next (Middleware.RootsEnforcementMiddleware host "tools/call"
                (CallToolReq callReq1))
  = calls_next (Middleware.RootsEnforcementMiddleware host "tools/call"
                  (CallToolReq callReq2)).
Proof.
  intros Hs1 Hs2 Ha1 Ha2 Ho1 Hn1 Ho2 Hn2 Hlower Hrepo.
  destruct (Middleware.resolved_roots host session) as [S|] eqn:Hroots.
  - rewrite (enforcement_calls_next host callReq1 session S args1 O1),
      (enforcement_calls_next host callReq2 session S args2 O2) by done.
    rewrite Hlower.
    destruct (Middleware.checked_repo args1) as [R1|],
      (Middleware.checked_repo args2) as [R2|]; simpl in Hrepo;
      simplify_eq; try done.
    by rewrite Hrepo.
  - rewrite !enforcement_unchecked; [done|..];
      intros ? session' ?????? Hroots' **; simplify_eq; congruence.
Qed.

Lemma enforcement_ignores_case_witness :
  calls_next
    (@Middleware.RootsEnforcementMiddleware GoAscii.go "github.com"
       "tools/call"
       (Scenario.call ["https://github.com/MyOrg/MyRepo"]
          (<["owner" := JString "MYORG"]> {["repo" := JString "MyRepo"]})))
  = calls_next
      (@Middleware.RootsEnforcementMiddleware GoAscii.go "github.com"
         "tools/call"
         (Scenario.call ["https://github.com/MyOrg/MyRepo"]
            (<["owner" := JString "myorg"]> {["repo" := JString "myrepo"]}))).
Proof.
  refine (@enforcement_ignores_case GoAscii.go "github.com"
    (Scenario.session_of ["https://github.com/MyOrg/MyRepo"])
    (mkCallToolRequest
       (Some (Scenario.session_of ["https://github.com/MyOrg/MyRepo"]))
       (mkParams "echo_args"
          (RawJSON (JObject (<["owner" := JString "MYORG"]>
                               {["repo" := JString "MyRepo"]})))))
    (mkCallToolRequest
       (Some (Scenario.session_of ["https://github.com/MyOrg/MyRepo"]))
       (mkParams "echo_args"
          (RawJSON (JObject (<["owner" := JString "myorg"]>
                               {["repo" := JString "myrepo"]})))))
    _ _ "MYORG" "myorg" eq_refl eq_refl eq_refl eq_refl eq_refl _ eq_refl _
    eq_refl eq_refl); discriminate.
Defined.

(** X11. With resolved roots present, declaring more roots never revokes
    access: a call the enforcement middleware forwards on a session stays
    forwarded when the session lists the same roots followed by further
    ones. *)
Theorem enforcement_monotone_in_roots `{GoLib}
    (host : string) (callReq1 callReq2 : CallToolRequest)
    (session1 session2 : ServerSession)
    (roots more : list (option Roots.mcpRoot)) (S : list Roots.Root) :
  Session callReq1 = Some session1 → Session callReq2 = Some session2 →
  Params callReq1 = Params callReq2 →
  ListRoots session1 = ListRootsOk roots →
  ListRoots session2 = ListRootsOk (roots ++ more)%list →
  Middleware.resolved_roots host session1 = Some S →
  calls_next (Middleware.RootsEnforcementMiddleware host "tools/call"
                (CallToolReq callReq1)) = true →
  calls_next (Middleware.RootsEnforcementMiddleware host "tools/call"
                (CallToolReq callReq2)) = true.
Proof.
  intros Hs1 Hs2 Hparams Hl1 Hl2 Hroots1 Hallowed.
  destruct (resolved_roots_Some _ _ _ Hroots1) as [Hne (roots' & Hl1' & HS)].
  rewrite Hl1 in Hl1'. injection Hl1' as <-.
  assert (Middleware.resolved_roots host session2
          = Some (S ++ Roots.ParseGitHubRoots more host)%list) as Hroots2.
  { unfold Middleware.resolved_roots. rewrite Hl2, resolved_app, <- HS.
    rewrite decide_False.
    - rewrite decide_False; [done|]. destruct S; [done|]. simpl. lia.
    - rewrite length_app. destruct roots; [|simpl; lia].
      rewrite HS in Hne. done. }
  destruct (calls_next (Middleware.RootsEnforcementMiddleware host "tools/call"
                          (CallToolReq callReq2))) eqn:Hdenied; [done|].
  assert (∃ args O, Arguments (Params callReq2) = RawJSON (JObject args)
                    ∧ args !! "owner" = Some (JString O) ∧ O ≠ "")
    as (args & O & Hraw & Howner & HO).
  { revert Hdenied. unfold calls_next.
    destruct (action _) as [|result err] eqn:Hact; [done|]. intros _.
    destruct (enforcement_return_inv _ _ _ _ _ Hact)
      as (callReq & ? & ? & args & O & _ & [= <-] & _ & _ & ? & ? & ?).
    by exists args, O. }
  rewrite (enforcement_calls_next host callReq2 session2
             (S ++ Roots.ParseGitHubRoots more host)%list args O)
    in Hdenied by done.
  rewrite (enforcement_calls_next host callReq1 session1 S args O)
    in Hallowed by (by rewrite ?Hparams).
  apply andb_true_iff in Hallowed as [Hown Hrepo].
  unfold Middleware.repo_allowed in *.
  rewrite !existsb_app, Hown in Hdenied. rewrite orb_true_l, andb_true_l in Hdenied.
  destruct (Middleware.checked_repo args) as [repo|]; [|done].
  rewrite existsb_app in Hdenied.
  apply orb_true_iff in Hrepo as [Hrepo|Hrepo]; rewrite Hrepo in Hdenied;
    by rewrite ?orb_true_l, ?orb_true_r in Hdenied.
Qed.

Lemma enforcement_monotone_in_roots_witness :
  calls_next
    (@Middleware.RootsEnforcementMiddleware GoAscii.go "github.com"
       "tools/call"
       (Scenario.call ["https://github.com/myorg/repo-a";
                       "https://github.com/other-org"]
          (<["owner" := JString "myorg"]> {["repo" := JString "repo-a"]})))
  = true.
Proof.
  refine (@enforcement_monotone_in_roots GoAscii.go "github.com"
    (mkCallToolRequest
       (Some (Scenario.session_of ["https://github.com/myorg/repo-a"]))
       (mkParams "echo_args"
          (RawJSON (JObject (<["owner" := JString "myorg"]>
                               {["repo" := JString "repo-a"]})))))
    (mkCallToolRequest
       (Some (Scenario.session_of ["https://github.com/myorg/repo-a";
                                   "https://github.com/other-org"]))
       (mkParams "echo_args"
          (RawJSON (JObject (<["owner" := JString "myorg"]>
                               {["repo" := JString "repo-a"]})))))
    _ _ [Some (Roots.mkMcpRoot "https://github.com/myorg/repo-a" "")]
    [Some (Roots.mkMcpRoot "https://github.com/other-org" "")]
    _ eq_refl eq_refl eq_refl eq_refl eq_refl eq_refl eq_refl).
Defined.

(** X12. What the enforcement middleware logs: a call it answers by itself
    is a denial with a nil error that logs exactly one record, at Info
    level, whose message is the text of the returned result and whose
    first attribute is the name of the tool; a call it forwards logs
    nothing above Debug level. *)
Theorem enforcement_log_discipline `{GoLib}
    (host method : string) (request : Request) :
  let step := Middleware.RootsEnforcementMiddleware host method request in
  match action step with
  | CallNext _ _ => ∀ l, l ∈ logged step → log_level l = LevelDebug
  | Return result err =>
      ∃ callReq msg attrs,
        request = CallToolReq callReq
        ∧ result = NewToolResultError msg ∧ err = None
        ∧ logged step
          = [mkLog LevelInfo msg (("tool", Mcp.Name (Params callReq)) :: attrs)]
  end.
Proof.
  intros step. subst step.
  destruct (enforcement_cases host method request)
    as [[-> Hlog]|(callReq & msg & attrs & -> & ->)]; [done|].
  simpl. by exists callReq, msg, attrs.
Qed.

(** ** More on the schema rewrite *)

Section rewrite_more.
Context {SchemaRest ToolRest ServerRest : Type}.
Import Inventory.
Implicit Types h : gmap loc (Schema SchemaRest).
Implicit Types t : ServerTool ToolRest ServerRest.
Implicit Types tools : list (ServerTool ToolRest ServerRest).

Lemma make_optional_untouched t h : untouched h t → make_optional t h = (t, h).
Proof.
  unfold untouched, make_optional.
  destruct (InputSchema (Tool t)) as [[l|]|]; [|done..].
  intros (schema & -> & Ho & Hr). by rewrite !bool_decide_eq_false_2.
Qed.

Lemma MakeOwnerRepoOptional_untouched tools h :
  Forall (untouched h) tools → MakeOwnerRepoOptional tools h = (tools, h).
Proof.
  induction 1 as [|t tools Ht _ IH]; [done|]. simpl.
  by rewrite make_optional_untouched, IH.
Qed.

Lemma make_optional_result t h t' h' :
  make_optional t h = (t', h') →
  (∀ l, InputSchema (Tool t) = SchemaPtr (Some l) → is_Some (h !! l)) →
  h ⊆ h' ∧ untouched h' t'.
Proof.
  intros Hrun Halloc.
  destruct (make_optional_spec _ _ _ _ Hrun)
    as [Hsub [[-> Hnone]|(l & schema & l' & schema' & _ & _ & _ & _ & _ & _
                          & Hin' & _ & Hnew & Hrw)]];
    (split; [done|]); unfold untouched.
  - destruct (InputSchema (Tool t)) as [[l|]|] eqn:Hin; [|done..].
    destruct (Halloc l eq_refl) as [schema Hl].
    exists schema. split; [by eapply lookup_weaken|]. by eapply Hnone.
  - destruct Hrw as [Hreq _].
    rewrite Hin'. exists schema'. split; [done|]. rewrite Hreq.
    split; intros [[? ?] _]%list_elem_of_filter; done.
Qed.

Lemma MakeOwnerRepoOptional_result tools h tools' h' :
  MakeOwnerRepoOptional tools h = (tools', h') →
  (∀ t l, t ∈ tools → InputSchema (Tool t) = SchemaPtr (Some l) →
          is_Some (h !! l)) →
  h ⊆ h' ∧ Forall (untouched h') tools'.
Proof.
  revert h tools' h'. induction tools as [|t tools IH]; intros h tools' h'.
  { by intros [= <- <-]. }
  simpl. destruct (make_optional t h) as [t1 h1] eqn:Hhead.
  destruct (MakeOwnerRepoOptional tools h1) as [rest h2] eqn:Htail.
  intros [= <- <-] Halloc.
  destruct (make_optional_result _ _ _ _ Hhead) as [Hsub1 Ht1].
  { intros l. apply Halloc, list_elem_of_here. }
  destruct (IH _ _ _ Htail) as [Hsub2 Hrest].
  { intros t' l Ht' Hin. destruct (Halloc t' l) as [schema Hl]; [|done|].
    - by apply list_elem_of_further.
    - exists schema. by eapply lookup_weaken. }
  split; [by etrans|]. constructor; [|done]. by eapply untouched_weaken.
Qed.

End rewrite_more.

(** X13. After the schema rewrite no tool requires owner or repo: when
    every schema pointer of the tools is allocated, each tool of the
    result that has a schema points to an allocated schema whose
    [Required] holds neither [owner] nor [repo]. *)
Theorem MakeOwnerRepoOptional_none_required
    {SchemaRest ToolRest ServerRest : Type}
    (tools : list (Inventory.ServerTool ToolRest ServerRest))
    (h : gmap Inventory.loc (Inventory.Schema SchemaRest)) :
  (∀ t l, t ∈ tools →
          Inventory.InputSchema (Inventory.Tool t) = Inventory.SchemaPtr (Some l) →
          is_Some (h !! l)) →
  ∀ t' l,
    t' ∈ (Inventory.MakeOwnerRepoOptional tools h).1 →
    Inventory.InputSchema (Inventory.Tool t') = Inventory.SchemaPtr (Some l) →
    ∃ schema,
      (Inventory.MakeOwnerRepoOptional tools h).2 !! l = Some schema
      ∧ ("owner" ∉ Inventory.Required schema)
      ∧ "repo" ∉ Inventory.Required schema.
Proof.
  intros Halloc t' l Ht' Hin.
  destruct (MakeOwnerRepoOptional_result tools h _ _ (surjective_pairing _)
              Halloc) as [_ Hall].
  rewrite Forall_forall in Hall. specialize (Hall t' Ht').
  unfold Inventory.untouched in Hall. by rewrite Hin in Hall.
Qed.

Lemma MakeOwnerRepoOptional_none_required_witness :
  ∃ t' l schema,
    (Inventory.MakeOwnerRepoOptional [Scenario.list_issues]
       Scenario.schema_heap).1 = [t']
    ∧ Inventory.InputSchema (Inventory.Tool t') = Inventory.SchemaPtr (Some l)
    ∧ (Inventory.MakeOwnerRepoOptional [Scenario.list_issues]
         Scenario.schema_heap).2 !! l = Some schema
    ∧ ("owner" ∉ Inventory.Required schema)
    ∧ "repo" ∉ Inventory.Required schema.
Proof.
  assert (∃ t', (Inventory.MakeOwnerRepoOptional [Scenario.list_issues]
                   Scenario.schema_heap).1 = [t']) as [t' Hres].
  { simpl. destruct (Inventory.make_optional _ _) as [t' h']. by exists t'. }
  assert (∃ l, Inventory.InputSchema (Inventory.Tool t')
               = Inventory.SchemaPtr (Some l)) as [l Hin].
  { revert Hres. simpl.
    destruct (Inventory.make_optional _ _) as [t1 h1] eqn:Hrun.
    intros [= <-].
    destruct (make_optional_spec _ _ _ _ Hrun)
      as [_ [[-> _]|(_ & _ & l' & _ & _ & _ & _ & _ & _ & _ & Hin & _)]];
      [by exists 1%positive|by exists l']. }
  destruct (MakeOwnerRepoOptional_none_required
              [Scenario.list_issues] Scenario.schema_heap) with (t' := t') (l := l)
    as (schema & Hl & Ho & Hr); [|by rewrite Hres; left|done|by exists t', l, schema].
  intros t l0 ->%list_elem_of_singleton [= <-]. by eexists.
Defined.

(** X14. The schema rewrite is idempotent: run on its own result (with
    the schemas it allocated) it returns the same tools and allocates
    nothing. *)
Theorem MakeOwnerRepoOptional_idempotent
    {SchemaRest ToolRest ServerRest : Type}
    (tools : list (Inventory.ServerTool ToolRest ServerRest))
    (h : gmap Inventory.loc (Inventory.Schema SchemaRest)) :
  (∀ t l, t ∈ tools →
          Inventory.InputSchema (Inventory.Tool t) = Inventory.SchemaPtr (Some l) →
          is_Some (h !! l)) →
  Inventory.MakeOwnerRepoOptional
    (Inventory.MakeOwnerRepoOptional tools h).1
    (Inventory.MakeOwnerRepoOptional tools h).2
  = Inventory.MakeOwnerRepoOptional tools h.
Proof.
  intros Halloc.
  destruct (MakeOwnerRepoOptional_result tools h _ _ (surjective_pairing _)
              Halloc) as [_ Hall].
  rewrite (MakeOwnerRepoOptional_untouched _ _ Hall).
  by destruct (Inventory.MakeOwnerRepoOptional tools h).
Qed.

Lemma MakeOwnerRepoOptional_idempotent_witness :
  Inventory.MakeOwnerRepoOptional
    (Inventory.MakeOwnerRepoOptional [Scenario.list_issues]
       Scenario.schema_heap).1
    (Inventory.MakeOwnerRepoOptional [Scenario.list_issues]
       Scenario.schema_heap).2
  = Inventory.MakeOwnerRepoOptional [Scenario.list_issues] Scenario.schema_heap.
Proof.
  apply (MakeOwnerRepoOptional_idempotent
           [Scenario.list_issues] Scenario.schema_heap).
  intros t l0 ->%list_elem_of_singleton [= <-]. by eexists.
Defined.

(** ** Building the inventory *)

Lemma apply_hosts (hosts : list string) (cfg : Server.inventoryConfig) :
  fold_left (λ cfg opt, opt cfg) (Server.WithHost <$> hosts) cfg
  = {| Server.host := default (Server.host cfg) (last hosts);
       Server.rootsMode := Server.rootsMode cfg |}.
Proof.
  revert cfg. induction hosts as [|a hosts IH]; intros cfg; [by destruct cfg|].
  rewrite fmap_cons. simpl fold_left. rewrite IH. simpl.
  rewrite last_cons. by destruct (last hosts).
Qed.

(** X15. Roots mode is off unless asked for: with host options only, as
    the server calls it, [NewInventory] hands over the tools of
    [AllTools] for the last host given (the empty host when none is) and
    rewrites no schema. *)
Theorem NewInventory_hosts_only {SchemaRest ToolRest ServerRest : Type}
    (AllTools : string → list (Inventory.ServerTool ToolRest ServerRest))
    (hosts : list string)
    (h : gmap Inventory.loc (Inventory.Schema SchemaRest)) :
  Server.NewInventory AllTools (Server.WithHost <$> hosts) h
  = (AllTools (default "" (last hosts)), h).
Proof.
  unfold Server.NewInventory, Server.apply_options. by rewrite apply_hosts.
Qed.

(** X16. The two kinds of inventory options write different fields of
    the configuration: exchanging a host option with a neighbouring
    roots-mode option, anywhere in the list, changes nothing of what
    [NewInventory] builds. *)
Theorem NewInventory_options_commute {SchemaRest ToolRest ServerRest : Type}
    (AllTools : string → list (Inventory.ServerTool ToolRest ServerRest))
    (before after : list Server.InventoryOption)
    (hostname : string) (enabled : bool)
    (h : gmap Inventory.loc (Inventory.Schema SchemaRest)) :
  Server.NewInventory AllTools
    (before ++ Server.WithHost hostname
            :: Server.WithRootsMode enabled :: after)%list h
  = Server.NewInventory AllTools
      (before ++ Server.WithRootsMode enabled
              :: Server.WithHost hostname :: after)%list h.
Proof.
  unfold Server.NewInventory, Server.apply_options.
  by rewrite !fold_left_app.
Qed.

(** ** The tool that lists the roots *)

Section roots_tool_facts.
Context `{GoLib}.
Import RootsTool.

Lemma root_infos_uris roots host :
  URI <$> root_infos roots host = Roots.root_URI <$> omap id roots.
Proof.
  induction roots as [|[root|] roots IH]; simpl; [done| |done].
  f_equal; [|exact IH].
  by destruct (Roots.ParseGitHubRootURI _ _) as [[owner repo]|e].
Qed.

Lemma root_infos_parsed roots host :
  (∀ s, ToLower s = "" → s = "") →
  info_root <$> filter (λ i, Owner i ≠ "") (root_infos roots host)
  = Roots.ParseGitHubRoots roots host.
Proof.
  intros Hlower.
  induction roots as [|[root|] roots IH]; simpl; [done| |done].
  destruct (Roots.ParseGitHubRootURI _ _) as [[owner repo]|e] eqn:Hparse.
  - destruct (Roots_parse_ok_shape _ _ _ _ Hparse)
      as (seg0 & Hseg0 & _ & Howner & _).
    rewrite filter_cons_True, fmap_cons, IH; [done|]. simpl.
    intros Hempty. rewrite Howner in Hempty. by apply Hlower in Hempty.
  - by rewrite filter_cons_False by (simpl; by intros ?).
Qed.

End roots_tool_facts.

(** X17. What the list_roots tool reports for a session that lists at
    least one root: one info per non-nil root, in order, with its URI;
    and, when lowercasing keeps non-empty strings non-empty, the infos
    that carry an owner describe exactly the roots the two middlewares
    resolve for the same listing. *)
Theorem ListRootsTool_reports_resolved_roots `{GoLib}
    (host : string) (req : CallToolRequest) (session : ServerSession)
    (roots : list (option Roots.mcpRoot)) :
  (∀ s, ToLower s = "" → s = "") →
  Session req = Some session →
  ListRoots session = ListRootsOk roots → roots ≠ [] →
  ∃ infos,
    RootsTool.ListRootsTool host req = RootsTool.ReplyMarshalled infos
    ∧ RootsTool.URI <$> infos = Roots.root_URI <$> omap id roots
    ∧ RootsTool.info_root <$> filter (λ i, RootsTool.Owner i ≠ "") infos
      = Roots.ParseGitHubRoots roots host.
Proof.
  intros Hlower Hsess Hlist Hne.
  exists (RootsTool.root_infos roots host). split_and!.
  - unfold RootsTool.ListRootsTool. rewrite Hsess, Hlist.
    rewrite decide_False; [done|]. by destruct roots.
  - apply root_infos_uris.
  - by apply root_infos_parsed.
Qed.

Lemma ListRootsTool_reports_resolved_roots_witness :
  ∃ infos,
    @RootsTool.ListRootsTool GoAscii.go "github.com"
      (mkCallToolRequest
         (Some (mkSession (ListRootsOk
            [Some (Roots.mkMcpRoot "https://github.com/MyOrg/Repo-A" "a");
             None;
             Some (Roots.mkMcpRoot "file:///home/user/project" "local")])))
         (mkParams "list_roots" RawEmpty))
    = RootsTool.ReplyMarshalled infos
    ∧ RootsTool.URI <$> infos
      = ["https://github.com/MyOrg/Repo-A"; "file:///home/user/project"]
    ∧ RootsTool.info_root <$> filter (λ i, RootsTool.Owner i ≠ "") infos
      = [Roots.mkRoot "myorg" "repo-a" "https://github.com/MyOrg/Repo-A" "a"].
Proof.
  exact (@ListRootsTool_reports_resolved_roots GoAscii.go "github.com"
    (mkCallToolRequest
       (Some (mkSession (ListRootsOk
          [Some (Roots.mkMcpRoot "https://github.com/MyOrg/Repo-A" "a");
           None;
           Some (Roots.mkMcpRoot "file:///home/user/project" "local")])))
       (mkParams "list_roots" RawEmpty))
    _ _ ascii_ToLower_nonempty eq_refl eq_refl
    ltac:(discriminate)).
Defined.

(** ** The server configuration *)

(** X18. [ResolvedEnabledToolsets] returns nil (use the defaults) exactly
    when the server is not in dynamic mode, no toolset list was given and
    no tool was asked for; in particular never in dynamic mode, whatever
    [RemoveToolset] leaves.  Outside dynamic mode a list that was given
    is returned as it is. *)
Theorem ResolvedEnabledToolsets_nil_iff
    (RemoveToolset : option (list string) → string → option (list string))
    (allID defaultID : string) (dynamicToolsets : bool)
    (enabledToolsets enabledTools : option (list string))
    (given : list string) :
  (Server.ResolvedEnabledToolsets RemoveToolset allID defaultID
     dynamicToolsets enabledToolsets enabledTools = None
   ↔ dynamicToolsets = false ∧ enabledToolsets = None
     ∧ default [] enabledTools = [])
  ∧ Server.ResolvedEnabledToolsets RemoveToolset allID defaultID
      false (Some given) enabledTools = Some given.
Proof.
  split; [|done]. unfold Server.ResolvedEnabledToolsets.
  destruct dynamicToolsets, enabledToolsets as [ts|]; simpl.
  - destruct (RemoveToolset _ _) as [ts'|]; simpl;
      split; [done|by intros [? _]|done|by intros [? _]].
  - split; [done|by intros [? _]].
  - split; [done|by intros (_ & ? & _)].
  - destruct enabledTools as [[|tool tools]|]; simpl; [done| |done].
    split; [done|by intros (_ & _ & ?)].
Qed.

Lemma featureSet_lookup (features : list string) (set : gmap string bool)
    (flag : string) :
  fold_left (λ set f, <[f := true]> set) features set !! flag
  = if decide (flag ∈ features) then Some true else set !! flag.
Proof.
  revert set. induction features as [|f features IH]; intros set; [done|].
  simpl. rewrite IH.
  destruct (decide (flag ∈ features)) as [Hin|Hout].
  - by rewrite decide_True by by right.
  - destruct (decide (flag = f)) as [->|Hne].
    + rewrite decide_True by by left. by rewrite lookup_insert_eq.
    + rewrite lookup_insert_ne by done.
      rewrite decide_False; [done|]. by intros [?|?]%elem_of_cons.
Qed.

(** X19. The feature checker of the local server: a flag is reported
    enabled exactly when it occurs in the list the checker was built
    from, and the checker never returns an error. *)
Theorem createFeatureChecker_spec (enabledFeatures : list string)
    (flagName : string) :
  Server.createFeatureChecker enabledFeatures flagName
  = (bool_decide (flagName ∈ enabledFeatures), None).
Proof.
  unfold Server.createFeatureChecker, Server.featureSet.
  rewrite featureSet_lookup, lookup_empty.
  by destruct (decide (flagName ∈ enabledFeatures));
    [rewrite bool_decide_eq_true_2|rewrite bool_decide_eq_false_2].
Qed.

(** X20. The feature checker of the HTTP server never enables a flag
    outside the whitelist: it answers true exactly for the flags that are
    both known and named in the request's header features, which is the
    conjunction of the local checkers built from the two lists; it never
    returns an error. *)
Theorem createHTTPFeatureChecker_whitelist
    (knownFeatureFlags headerFeatures : list string) (flag : string) :
  ((Server.createHTTPFeatureChecker knownFeatureFlags headerFeatures flag).1
   = true ↔ flag ∈ knownFeatureFlags ∧ flag ∈ headerFeatures)
  ∧ (Server.createHTTPFeatureChecker knownFeatureFlags headerFeatures flag).1
    = (Server.createFeatureChecker knownFeatureFlags flag).1
      && (Server.createFeatureChecker headerFeatures flag).1
  ∧ (Server.createHTTPFeatureChecker knownFeatureFlags headerFeatures flag).2
    = None.
Proof.
  unfold Server.createHTTPFeatureChecker, Server.createFeatureChecker,
    Server.featureSet.
  rewrite !featureSet_lookup, !lookup_empty.
  destruct (decide (flag ∈ knownFeatureFlags)) as [Hk|Hk];
    destruct (decide (flag ∈ headerFeatures)) as [Hh|Hh]; simpl;
    rewrite ?(bool_decide_eq_true_2 _ Hh), ?(bool_decide_eq_false_2 _ Hh);
    simpl; (split; [|done]); split; try done; try tauto; by intros [? ?].
Qed.

(** ** The split view of the diff viewer *)

Section split_rows.
Context {number : Type}.
Import DiffView.
Implicit Types lines run : list (DiffLine number).

Lemma collect_spec t lines :
  lines = ((collect t lines).1 ++ (collect t lines).2)%list
  ∧ Forall (λ l, type l = t) (collect t lines).1.
Proof.
  induction lines as [|line lines [IH1 IH2]]; simpl; [done|].
  case_decide; [|done]. destruct (collect t lines) as [run rest]; simpl in *.
  split; [by rewrite IH1 at 1|by constructor].
Qed.

Lemma collect_current t line lines :
  type line = t →
  collect t (line :: lines)
  = (line :: (collect t lines).1, (collect t lines).2).
Proof.
  intros Htype. simpl. rewrite decide_True by done.
  by destruct (collect t lines).
Qed.

Lemma collect_shorter t lines :
  (length (collect t lines).2 ≤ length lines)%nat.
Proof.
  destruct (collect_spec t lines) as [Hsplit _].
  rewrite Hsplit at 2. rewrite length_app. lia.
Qed.

Lemma lookups_from {A} (l : list A) (n k : nat) :
  (length l ≤ n + k)%nat →
  omap (λ j, l !! j) (seq n k) = drop n l.
Proof.
  revert n. induction k as [|k IH]; intros n Hk.
  { rewrite drop_ge; [done|lia]. }
  simpl. rewrite IH by lia.
  destruct (l !! n) as [x|] eqn:Hn.
  - by rewrite (drop_S _ _ _ Hn).
  - apply lookup_ge_None in Hn. rewrite !drop_ge; [done|lia..].
Qed.

Lemma pair_up_left (deletions additions : list (DiffLine number)) :
  omap left (pair_up deletions additions) = deletions.
Proof.
  unfold pair_up. rewrite <- (lookups_from deletions 0
    (max (length deletions) (length additions))) at 2 by lia.
  generalize 0%nat (max (length deletions) (length additions)).
  intros n k. revert n. induction k as [|k IH]; intros n; [done|].
  simpl. rewrite IH. done.
Qed.

Lemma pair_up_right (deletions additions : list (DiffLine number)) :
  omap right (pair_up deletions additions) = additions.
Proof.
  unfold pair_up. rewrite <- (lookups_from additions 0
    (max (length deletions) (length additions))) at 2 by lia.
  generalize 0%nat (max (length deletions) (length additions)).
  intros n k. revert n. induction k as [|k IH]; intros n; [done|].
  simpl. rewrite IH. done.
Qed.

Lemma filter_all (P : DiffLine number → Prop) `{∀ x, Decision (P x)} run :
  Forall P run → filter P run = run.
Proof.
  induction 1 as [|x run Hx _ IH]; [done|].
  by rewrite filter_cons_True, IH.
Qed.

Lemma filter_none (P : DiffLine number → Prop) `{∀ x, Decision (P x)} run :
  Forall (λ x, ¬ P x) run → filter P run = [].
Proof.
  induction 1 as [|x run Hx _ IH]; [done|].
  by rewrite filter_cons_False.
Qed.

Lemma pair_up_rows (deletions additions : list (DiffLine number)) :
  Forall (λ row, is_Some (left row) ∨ is_Some (right row))
    (pair_up deletions additions)
  ∧ (length (pair_up deletions additions)
     ≤ length deletions + length additions)%nat.
Proof.
  unfold pair_up. split; [|rewrite length_fmap, length_seq; lia].
  apply Forall_fmap, Forall_seq. intros j Hj. simpl.
  destruct (decide (j < length deletions)%nat).
  - left. by apply lookup_lt_is_Some.
  - right. apply lookup_lt_is_Some. lia.
Qed.

End split_rows.

(** X21. The split view loses, repeats and reorders no line: the left
    sides of the rows of [buildSplitRows], read top to bottom, are the
    lines of the hunk that are not additions, in order, and the right
    sides are the lines that are not deletions, in order. *)
Theorem buildSplitRows_sides {number : Type}
    (lines : list (DiffView.DiffLine number)) :
  omap DiffView.left (DiffView.buildSplitRows lines)
  = filter (λ l, DiffView.type l ≠ DiffView.addition) lines
  ∧ omap DiffView.right (DiffView.buildSplitRows lines)
    = filter (λ l, DiffView.type l ≠ DiffView.deletion) lines.
Proof.
  unfold DiffView.buildSplitRows.
  remember (length lines) as fuel eqn:Hfuel.
  assert (length lines ≤ fuel)%nat as Hle by lia. clear Hfuel.
  revert lines Hle. induction fuel as [|fuel IH]; intros lines Hfuel.
  { by destruct lines; [|simpl in Hfuel; lia]. }
  destruct lines as [|line rest]; [done|].
  simpl in Hfuel. cbn [DiffView.rows_from].
  destruct (DiffView.type line) eqn:Htype.
  - destruct (IH rest) as [IHl IHr]; [lia|].
    rewrite filter_cons_False, filter_cons_True
      by (rewrite Htype; first [done|by intros ?]).
    simpl. split; [exact IHl|by f_equal].
  - rewrite (collect_current _ _ _ Htype).
    destruct (collect_spec DiffView.deletion rest) as [Hrest Hdel].
    destruct (collect_spec DiffView.addition
                (DiffView.collect DiffView.deletion rest).2) as [Hrest1 Hadd].
    pose proof (collect_shorter DiffView.deletion rest).
    pose proof (collect_shorter DiffView.addition
                  (DiffView.collect DiffView.deletion rest).2).
    destruct (DiffView.collect DiffView.deletion rest) as [dels rest1];
      simpl in *.
    destruct (DiffView.collect DiffView.addition rest1) as [adds rest2];
      simpl in *.
    assert (length rest2 ≤ fuel)%nat as Hless by lia.
    destruct (IH rest2 Hless) as [IHl IHr].
    rewrite !omap_app, pair_up_left, pair_up_right, IHl, IHr.
    rewrite filter_cons_True, filter_cons_False
      by (rewrite Htype; first [done|by intros ?]).
    rewrite Hrest, Hrest1, !filter_app.
    rewrite (filter_all _ dels), (filter_none _ adds), (filter_none _ dels),
      (filter_all _ adds).
    + done.
    + eapply Forall_impl; [exact Hadd|]. by intros ? ->.
    + eapply Forall_impl; [exact Hdel|]. intros ? -> ?. done.
    + eapply Forall_impl; [exact Hadd|]. intros ? -> ?. done.
    + eapply Forall_impl; [exact Hdel|]. by intros ? ->.
  - destruct (IH rest) as [IHl IHr]; [lia|].
    rewrite !filter_cons_True by (rewrite Htype; first [done|by intros ?]).
    simpl. split; f_equal; [exact IHl|exact IHr].
Qed.

(** X22. The split view has no empty row and at most one row per line:
    every row of [buildSplitRows] has a line on its left or on its right,
    and there are no more rows than lines. *)
Theorem buildSplitRows_rows {number : Type}
    (lines : list (DiffView.DiffLine number)) :
  Forall (λ row, is_Some (DiffView.left row) ∨ is_Some (DiffView.right row))
    (DiffView.buildSplitRows lines)
  ∧ (length (DiffView.buildSplitRows lines) ≤ length lines)%nat.
Proof.
  unfold DiffView.buildSplitRows.
  generalize (Nat.le_refl (length lines)).
  generalize (length lines) at 2 3 4 as fuel.
  intros fuel. revert lines.
  induction fuel as [|fuel IH]; intros lines Hfuel.
  { split; [done|simpl; lia]. }
  destruct lines as [|line rest]; [by split|].
  simpl in Hfuel. cbn [DiffView.rows_from].
  destruct (DiffView.type line) eqn:Htype.
  - destruct (IH rest) as [IHrows IHlen]; [lia|].
    split; [|simpl; lia]. constructor; [|done]. by right.
  - rewrite (collect_current _ _ _ Htype).
    destruct (collect_spec DiffView.deletion rest) as [Hrest _].
    destruct (collect_spec DiffView.addition
                (DiffView.collect DiffView.deletion rest).2) as [Hrest1 _].
    apply (f_equal length) in Hrest, Hrest1.
    rewrite length_app in Hrest, Hrest1.
    destruct (DiffView.collect DiffView.deletion rest) as [dels rest1];
      simpl in *.
    destruct (DiffView.collect DiffView.addition rest1) as [adds rest2];
      simpl in *.
    assert (length rest2 ≤ fuel)%nat as Hless by lia.
    destruct (IH rest2 Hless) as [IHrows IHlen].
    destruct (pair_up_rows (line :: dels) adds) as [Hrows Hlen].
    split; [by apply Forall_app|]. rewrite length_app. simpl in Hlen. lia.
  - destruct (IH rest) as [IHrows IHlen]; [lia|].
    split; [|simpl; lia]. constructor; [|done]. by left.
Qed.
